(** * RPS helper bot: a shallow embedding of [rps_helper.js]

    The development follows the source file top-down: JavaScript values and
    string coercions, the game constants, the pure outcome resolver
    [determineRPSOutcome], then the stateful part (the in-memory session
    table, the [rps_sessions] table, the pending timers) written in a small
    state-and-exception monad, and finally the properties.

    Modelling conventions.
    - JavaScript strings are [string], the bytes of their UTF-8 encoding.
      [toLowerCase] folds the ASCII capitals and the Kelvin sign (U+212A),
      the characters whose lower case is an ASCII letter; no other
      character lower-cases to an ASCII letter, so whether a lower-cased
      text is one of the three choice keys is as in JavaScript.
      Numbers are the integers that identifiers are, taken exact, as
      JavaScript has them up to [Number.MAX_SAFE_INTEGER] ([safe_integer]);
      the properties that print or parse an identifier are stated for
      such integers.
    - Objects that the code mutates through several references (a session
      object is reachable from the session table and from the handler that
      looked it up) live in an explicit heap; the session table maps ids
      to references.
    - Each handler runs to completion. What two handlers of one session
      do when they overlap at an [await] is shown on the one place where it
      matters, the end of a duel ([submit_until_verdict] and
      [submit_verdict]). An exception that leaves a handler is
      dropped by the event loop, with the state as the handler left it.
    - External calls that may reject (transport, datastore) ask an
      environment whether they succeed, and every call is recorded in a
      trace. Texts given to the transport are kept as templates.
    - [runUnifiedOffer] and [runDirectChallenge] are called by the source
      and defined nowhere in it; they are modelled from the specification
      and marked so. *)

From Stdlib Require Import ZArith String Ascii List Bool.
From stdpp Require Import base option list gmap strings pretty.

Open Scope string_scope.

(** ** JavaScript values *)

Inductive jsval :=
| JUndefined
| JNull
| JNum (n : Z)
| JStr (s : string).

#[global] Instance jsval_eq_dec : EqDecision jsval.
Proof. solve_decision. Defined.

(** [String(v)]; a number is printed with all its digits, as JavaScript
    prints the safe integers (it switches to exponent form from 1e21). *)
Definition js_String (v : jsval) : string :=
  match v with
  | JUndefined => "undefined"
  | JNull => "null"
  | JNum n => pretty n
  | JStr s => s
  end.

(** Truthiness, as tested by [if (v)], [!v] and [a && b]. *)
Definition truthy (v : jsval) : bool :=
  match v with
  | JUndefined | JNull => false
  | JNum n => negb (n =? 0)%Z
  | JStr s => negb (String.eqb s "")
  end.

(** A parameter with a default value: the default is taken when the caller
    passes [undefined]. *)
Definition default_param (v : jsval) (d : string) : jsval :=
  match v with JUndefined => JStr d | _ => v end.

Definition lower_ascii (c : ascii) : ascii :=
  let n := nat_of_ascii c in
  if (65 <=? n)%nat && (n <=? 90)%nat then ascii_of_nat (n + 32) else c.

(** [s.toLowerCase()]. The Kelvin sign, bytes [E2 84 AA], becomes [k]; it
    is the one character outside ASCII whose lower case is an ASCII letter.
    Other characters outside ASCII are left as they are. *)
Fixpoint toLowerCase (s : string) : string :=
  match s with
  | EmptyString => EmptyString
  | String "226" (String "132" (String "170" r)) => String "k" (toLowerCase r)
  | String c r => String (lower_ascii c) (toLowerCase r)
  end.

(** [arr.includes(x)] on an array of strings *)
Definition includes (arr : list string) (x : string) : bool :=
  existsb (String.eqb x) arr.

(** ** Game constants *)

Module RPS_CHOICES.
Definition ROCK := "rock".
Definition PAPER := "paper".
Definition SCISSORS := "scissors".
End RPS_CHOICES.

(** [Object.values(RPS_CHOICES)] *)
Definition RPS_CHOICES_values : list string :=
  [RPS_CHOICES.ROCK; RPS_CHOICES.PAPER; RPS_CHOICES.SCISSORS].

(** [RPS_EMOJIS[k]] on the object's own properties: [None] is JavaScript's
    [undefined]. The literals are the ones of the source file. (A key such
    as ['constructor'] reads an inherited property in JavaScript; the value
    shows in message texts only, which are kept as templates.) *)
Definition RPS_EMOJIS (k : string) : option string :=
  if String.eqb k RPS_CHOICES.ROCK then Some "ü™®"
  else if String.eqb k RPS_CHOICES.PAPER then Some "üìÑ"
  else if String.eqb k RPS_CHOICES.SCISSORS then Some "‚úÇÔ∏è"
  else None.

Record rule := { beats : string; verb : string }.

(** [RPS_RULES[k]] *)
Definition RPS_RULES (k : string) : option rule :=
  if String.eqb k RPS_CHOICES.ROCK
  then Some {| beats := RPS_CHOICES.SCISSORS; verb := "crushes" |}
  else if String.eqb k RPS_CHOICES.PAPER
  then Some {| beats := RPS_CHOICES.ROCK; verb := "covers" |}
  else if String.eqb k RPS_CHOICES.SCISSORS
  then Some {| beats := RPS_CHOICES.PAPER; verb := "cuts" |}
  else None.

Definition ACTIVE_GAME_TURN_TIMEOUT_MS_default : Z := 45000.

(** ** Utility functions *)

Definition escape_char (c : ascii) : string :=
  if Ascii.eqb c "&" then "&amp;"
  else if Ascii.eqb c "<" then "&lt;"
  else if Ascii.eqb c ">" then "&gt;"
  else if Ascii.eqb c "034"%char then "&quot;"
  else if Ascii.eqb c "'" then "&#039;"
  else String c EmptyString.

Fixpoint escape_string (s : string) : string :=
  match s with
  | EmptyString => EmptyString
  | String c r => escape_char c ++ escape_string r
  end.

(** [escapeHTML(text)]: the five replacements are applied in an order in
    which none rewrites the output of an earlier one, so they amount to one
    pass over the characters. *)
Definition escapeHTML (text : jsval) : string :=
  match text with
  | JNull | JUndefined => ""
  | _ => escape_string (js_String text)
  end.

(** The text a template literal inserts for [obj[k]] when that is a string
    or [undefined]. *)
Definition template_of (o : option string) : string :=
  match o with Some s => s | None => "undefined" end.

(** [RPS_RULES[k].verb]; the source reads it only for a key that passed the
    [includes] test, where the entry exists (lemma [RPS_RULES_defined]). *)
Definition verb_of (k : string) : string :=
  match RPS_RULES k with Some r => verb r | None => "" end.

(** ** The outcome resolver *)

Record outcome := { result : string; description : string }.

Definition determineRPSOutcome
    (player1ChoiceKey player2ChoiceKey : jsval)
    (player1NameHtml player2NameHtml : jsval) : outcome :=
  let player1NameHtml := default_param player1NameHtml "Player 1" in
  let player2NameHtml := default_param player2NameHtml "Player 2" in
  let p1c := toLowerCase (js_String player1ChoiceKey) in
  let p2c := toLowerCase (js_String player2ChoiceKey) in
  if negb (includes RPS_CHOICES_values p1c)
     || negb (includes RPS_CHOICES_values p2c)
  then {| result := "error"; description := "An internal error occurred." |}
  else if String.eqb p1c p2c
  then {| result := "draw"; description := "It's a Draw!" |}
  else if match RPS_RULES p1c with
          | Some r => String.eqb (beats r) p2c
          | None => false
          end
  then {| result := "win_player1";
          description :=
            js_String player1NameHtml ++ "'s " ++ template_of (RPS_EMOJIS p1c)
            ++ " " ++ verb_of p1c ++ " " ++ template_of (RPS_EMOJIS p2c) ++ "!" |}
  else {| result := "win_player2";
          description :=
            js_String player2NameHtml ++ "'s " ++ template_of (RPS_EMOJIS p2c)
            ++ " " ++ verb_of p2c ++ " " ++ template_of (RPS_EMOJIS p1c) ++ "!" |}.

(** The beats relation as the specification words it: rock beats scissors,
    scissors beats paper, paper beats rock. *)
Inductive beats_rel : string -> string -> Prop :=
| rock_beats_scissors : beats_rel "rock" "scissors"
| scissors_beats_paper : beats_rel "scissors" "paper"
| paper_beats_rock : beats_rel "paper" "rock".

(** A choice key as the resolver sees it. *)
Definition normalise (v : jsval) : string := toLowerCase (js_String v).

Definition valid_choice (v : jsval) : Prop :=
  includes RPS_CHOICES_values (normalise v) = true.

(** ** Sessions and the worker's state *)

(** The game-state blob [session.game_state_json]. A property the object
    does not have reads as [JUndefined]. *)
Record game_state := {
  status : jsval;
  initiatorName : jsval;
  opponentName : jsval;
  helperMessageId : jsval;
  p1_choice : jsval;
  p2_choice : jsval;
  bot_choice : jsval;
}.

(** A row of [rps_sessions]; [updated_at] and the other timestamps are
    left out. *)
Record row := {
  session_id : Z;
  main_bot_game_id : string;
  db_status : string;
  helper_bot_id : jsval;
  chat_id : jsval;
  initiator_id : jsval;
  opponent_id : jsval;
  game_state_json : game_state;
}.

(** A session object: the row returned by the claim, which the handlers
    then mutate, and the [timeoutId] property they add to it. *)
Record session := {
  fields : row;
  timeoutId : option nat;
}.

Definition set_status (v : jsval) (g : game_state) : game_state :=
  {| status := v; initiatorName := initiatorName g;
     opponentName := opponentName g; helperMessageId := helperMessageId g;
     p1_choice := p1_choice g; p2_choice := p2_choice g;
     bot_choice := bot_choice g |}.

Definition set_opponentName (v : jsval) (g : game_state) : game_state :=
  {| status := status g; initiatorName := initiatorName g;
     opponentName := v; helperMessageId := helperMessageId g;
     p1_choice := p1_choice g; p2_choice := p2_choice g;
     bot_choice := bot_choice g |}.

Definition set_p1_choice (v : jsval) (g : game_state) : game_state :=
  {| status := status g; initiatorName := initiatorName g;
     opponentName := opponentName g; helperMessageId := helperMessageId g;
     p1_choice := v; p2_choice := p2_choice g;
     bot_choice := bot_choice g |}.

Definition set_p2_choice (v : jsval) (g : game_state) : game_state :=
  {| status := status g; initiatorName := initiatorName g;
     opponentName := opponentName g; helperMessageId := helperMessageId g;
     p1_choice := p1_choice g; p2_choice := v;
     bot_choice := bot_choice g |}.

Definition set_bot_choice (v : jsval) (g : game_state) : game_state :=
  {| status := status g; initiatorName := initiatorName g;
     opponentName := opponentName g; helperMessageId := helperMessageId g;
     p1_choice := p1_choice g; p2_choice := p2_choice g;
     bot_choice := v |}.

Definition set_db_status (v : string) (r : row) : row :=
  {| session_id := session_id r; main_bot_game_id := main_bot_game_id r;
     db_status := v; helper_bot_id := helper_bot_id r;
     chat_id := chat_id r; initiator_id := initiator_id r;
     opponent_id := opponent_id r; game_state_json := game_state_json r |}.

Definition set_helper_bot_id (v : jsval) (r : row) : row :=
  {| session_id := session_id r; main_bot_game_id := main_bot_game_id r;
     db_status := db_status r; helper_bot_id := v;
     chat_id := chat_id r; initiator_id := initiator_id r;
     opponent_id := opponent_id r; game_state_json := game_state_json r |}.

Definition set_opponent_id (v : jsval) (r : row) : row :=
  {| session_id := session_id r; main_bot_game_id := main_bot_game_id r;
     db_status := db_status r; helper_bot_id := helper_bot_id r;
     chat_id := chat_id r; initiator_id := initiator_id r;
     opponent_id := v; game_state_json := game_state_json r |}.

Definition set_game_state_json (g : game_state) (r : row) : row :=
  {| session_id := session_id r; main_bot_game_id := main_bot_game_id r;
     db_status := db_status r; helper_bot_id := helper_bot_id r;
     chat_id := chat_id r; initiator_id := initiator_id r;
     opponent_id := opponent_id r; game_state_json := g |}.

Definition on_fields (f : row -> row) (s : session) : session :=
  {| fields := f (fields s); timeoutId := timeoutId s |}.

(** [session.game_state_json.p = v] *)
Definition on_game_state (f : game_state -> game_state) (s : session) : session :=
  on_fields (fun r => set_game_state_json (f (game_state_json r)) r) s.

Definition set_timeoutId (t : option nat) (s : session) : session :=
  {| fields := fields s; timeoutId := t |}.

Definition gameState_of (s : session) : game_state := game_state_json (fields s).

(** Texts handed to the transport. Rendering is the transport's concern;
    a text is kept as its template and the values put into it. *)
Inductive message :=
| MsgNoLongerActive
| MsgAlreadyChosen
| MsgChoiceLockedIn
| MsgLockedInSecretly
| MsgOfferExpired
| MsgPlayerTimedOut
| MsgDuelTimedOut
| MsgVsBot (playerRefHTML : string)
| MsgDuelStarted (p1_name p2_name : string)
| MsgDuelReady (against : string)
| MsgDeclined (opponent : string)
| MsgResult (you bot : string) (descr : string)
| MsgDuelResult (p1_name p1 p2_name p2 : string) (descr : string)
| MsgOffer
| MsgChallenge.

(** Statements sent to the datastore. *)
Inductive statement :=
| SqlBegin
| SqlCommit
| SqlRollback
| SqlClaim (helper : string) (mainBotGameId : string)
| SqlFinal (finalStatus : string) (finalGameState : game_state) (sessionId : Z)
| SqlListen.

(** What the worker does to the outside, in order. *)
Inductive effect :=
| ConsoleLog (tag : string)
| ConsoleError (tag : string)
| PoolConnect
| ClientRelease
| Query (q : statement)
| AnswerCallbackQuery (id : string) (text : option message) (show_alert : bool)
| EditMessageText (text : message) (chat : jsval) (message_id : jsval)
| SendMessage (chat : jsval) (text : message)
| DeleteMessage (chat : jsval) (message_id : jsval).

Record world := {
  heap : list session;                    (* session objects; a reference is an index *)
  activeHelperGames : gmap Z nat;         (* the Map: session id to session object *)
  rps_sessions : list row;                (* the committed table *)
  transaction : option (list row);        (* the table as the open transaction sees it *)
  timers : list (option (Z * string));    (* setTimeout tasks; [None]: cleared or fired *)
  clock : nat;                            (* external calls made so far *)
  effects : list effect;                  (* newest last *)
}.

Definition set_heap (f : list session -> list session) (w : world) : world :=
  {| heap := f (heap w);
     activeHelperGames := activeHelperGames w; rps_sessions := rps_sessions w;
     transaction := transaction w; timers := timers w; clock := clock w;
     effects := effects w |}.

Definition set_games (f : gmap Z nat -> gmap Z nat) (w : world) : world :=
  {| heap := heap w;
     activeHelperGames := f (activeHelperGames w); rps_sessions := rps_sessions w;
     transaction := transaction w; timers := timers w; clock := clock w;
     effects := effects w |}.

Definition set_table (f : list row -> list row) (w : world) : world :=
  {| heap := heap w;
     activeHelperGames := activeHelperGames w; rps_sessions := f (rps_sessions w);
     transaction := transaction w; timers := timers w; clock := clock w;
     effects := effects w |}.

Definition set_transaction (t : option (list row)) (w : world) : world :=
  {| heap := heap w;
     activeHelperGames := activeHelperGames w; rps_sessions := rps_sessions w;
     transaction := t; timers := timers w; clock := clock w;
     effects := effects w |}.

Definition set_timers (f : list (option (Z * string)) -> list (option (Z * string)))
    (w : world) : world :=
  {| heap := heap w;
     activeHelperGames := activeHelperGames w; rps_sessions := rps_sessions w;
     transaction := transaction w; timers := f (timers w); clock := clock w;
     effects := effects w |}.

Definition tick (w : world) : world :=
  {| heap := heap w;
     activeHelperGames := activeHelperGames w; rps_sessions := rps_sessions w;
     transaction := transaction w; timers := timers w; clock := S (clock w);
     effects := effects w |}.

Definition emit (e : effect) (w : world) : world :=
  {| heap := heap w;
     activeHelperGames := activeHelperGames w; rps_sessions := rps_sessions w;
     transaction := transaction w; timers := timers w; clock := clock w;
     effects := (effects w ++ [e])%list |}.

(** The environment: whether the n-th external call succeeds, and what
    [Math.floor(Math.random() * 3)] is when it is the n-th external call. *)
Record env := {
  succeeds : nat -> bool;
  random_index : nat -> nat;
}.

(** ** The monad of handlers: state, and exceptions that keep the state *)

Inductive res (A : Type) :=
| Ok (a : A)
| Throw (e : string).
Arguments Ok {A} a.
Arguments Throw {A} e.

Definition M (A : Type) : Type := world -> res A * world.

Definition ret {A} (a : A) : M A := fun w => (Ok a, w).

Definition bind {A B} (m : M A) (k : A -> M B) : M B :=
  fun w => match m w with
           | (Ok a, w') => k a w'
           | (Throw e, w') => (Throw e, w')
           end.

Notation "'let*' x := m 'in' k" := (bind m (fun x => k))
  (at level 10, x name, m at level 100, k at level 200).
Notation "m >> k" := (bind m (fun _ => k))
  (at level 90, right associativity).

(** [try { body } catch (e) { handler }] *)
Definition try_catch {A} (body : M A) (handler : string -> M A) : M A :=
  fun w => match body w with
           | (Ok a, w') => (Ok a, w')
           | (Throw e, w') => handler e w'
           end.

(** [try { body } finally { cleanup }] *)
Definition try_finally {A} (body : M A) (cleanup : M unit) : M A :=
  fun w => match body w with
           | (r, w') =>
             match cleanup w' with
             | (Ok _, w'') => (r, w'')
             | (Throw e, w'') => (Throw e, w'')
             end
           end.

Definition get {A} (f : world -> A) : M A := fun w => (Ok (f w), w).
Definition modify (f : world -> world) : M unit := fun w => (Ok tt, f w).

(** ** Action events as the transport delivers them *)

Record user := {
  user_id : Z;
  username : jsval;
  first_name : jsval;
  telegram_id : jsval;
}.

(** The callback of a button: [data] is the string the button carries. *)
Record callback_query := {
  cq_id : string;               (* callbackQuery.id *)
  cq_data : string;             (* callbackQuery.data *)
  cq_from : user;               (* callbackQuery.from *)
  cq_message : option jsval;    (* callbackQuery.message, as its message_id *)
}.

(** [s.split(':')] *)
Fixpoint split_colon (s : string) : list string :=
  match s with
  | EmptyString => [EmptyString]
  | String c r =>
    if Ascii.eqb c ":" then EmptyString :: split_colon r
    else match split_colon r with
         | h :: t => String c h :: t
         | [] => [String c EmptyString]
         end
  end.

(** The white space and the line terminators that [parseInt] skips
    ([StrWhiteSpaceChar]), by the bytes of their UTF-8 encoding: the ASCII
    ones (TAB, LF, VT, FF, CR, SP), *)
Definition is_whitespace (c : ascii) : bool :=
  let n := nat_of_ascii c in
  ((9 <=? n)%nat && (n <=? 13)%nat) || (n =? 32)%nat.

(** the no-break space U+00A0, *)
Definition is_whitespace2 (c d : ascii) : bool :=
  (nat_of_ascii c =? 194)%nat && (nat_of_ascii d =? 160)%nat.

(** and U+1680, U+2000 to U+200A, U+2028, U+2029, U+202F, U+205F, U+3000
    and U+FEFF. *)
Definition is_whitespace3 (c d e : ascii) : bool :=
  let c := nat_of_ascii c in
  let d := nat_of_ascii d in
  let e := nat_of_ascii e in
  ((c =? 225)%nat && (d =? 154)%nat && (e =? 128)%nat)
  || ((c =? 226)%nat && (d =? 128)%nat
      && (((128 <=? e)%nat && (e <=? 138)%nat)
          || (e =? 168)%nat || (e =? 169)%nat || (e =? 175)%nat))
  || ((c =? 226)%nat && (d =? 129)%nat && (e =? 159)%nat)
  || ((c =? 227)%nat && (d =? 128)%nat && (e =? 128)%nat)
  || ((c =? 239)%nat && (d =? 187)%nat && (e =? 191)%nat).

Fixpoint skip_whitespace (s : string) : string :=
  match s with
  | EmptyString => EmptyString
  | String c r =>
    if is_whitespace c then skip_whitespace r
    else match r with
         | String d r1 =>
           if is_whitespace2 c d then skip_whitespace r1
           else match r1 with
                | String e r2 =>
                  if is_whitespace3 c d e then skip_whitespace r2 else s
                | EmptyString => s
                end
         | EmptyString => s
         end
  end.

Definition digit_value (c : ascii) : option Z :=
  let n := nat_of_ascii c in
  if (48 <=? n)%nat && (n <=? 57)%nat then Some (Z.of_nat (n - 48)) else None.

Fixpoint leading_digits (s : string) (acc : option Z) : option Z :=
  match s with
  | EmptyString => acc
  | String c r =>
    match digit_value c with
    | Some d => leading_digits r (Some (10 * default 0%Z acc + d)%Z)
    | None => acc
    end
  end.

(** [parseInt(v, 10)]; [None] is [NaN]. Leading white space, a sign, then
    the longest run of decimal digits. The number is taken exact, which is
    what JavaScript returns while it is a safe integer; past that
    JavaScript rounds, to a number that is no safe integer either. *)
Definition parseInt10 (v : jsval) : option Z :=
  match skip_whitespace (js_String v) with
  | String "-" r => Z.opp <$> leading_digits r None
  | String "+" r => leading_digits r None
  | s => leading_digits s None
  end.

(** [const [action, sessionIdStr, ...params] = data.split(':')], with
    [params[0]] for [params]. *)
Definition destructure (parts : list string) : string * jsval * jsval :=
  match parts with
  | [] => ("", JUndefined, JUndefined)
  | [action] => (action, JUndefined, JUndefined)
  | [action; sessionIdStr] => (action, JStr sessionIdStr, JUndefined)
  | action :: sessionIdStr :: p :: _ => (action, JStr sessionIdStr, JStr p)
  end.

(** [String(x).slice(-4)] *)
Definition slice_last4 (s : string) : string :=
  substring (String.length s - 4) 4 s.

Definition getPlayerDisplayReference (userObject : option user) : jsval :=
  match userObject with
  | None => JStr "Mystery Player"
  | Some u =>
    if truthy (username u) then JStr ("@" ++ js_String (username u))
    else if truthy (first_name u) then first_name u
    else JStr ("Player " ++
               slice_last4 (js_String (if truthy (JNum (user_id u))
                                       then JNum (user_id u)
                                       else telegram_id u)))
  end.

(** ** The worker *)

Section Worker.

Variable E : env.
(** [BOT_TOKEN.split(':')[0]] *)
Variable BOT_ID : string.

(** An external call is recorded, and rejects when the environment says
    so. *)
Definition external (e : effect) : M unit :=
  fun w =>
    let w' := tick (emit e w) in
    if succeeds E (clock w) then (Ok tt, w') else (Throw "rejected", w').

Definition console_log (tag : string) : M unit := modify (emit (ConsoleLog tag)).
Definition console_error (tag : string) : M unit := modify (emit (ConsoleError tag)).

Definition answerCallbackQuery (id : string) (text : option message)
    (show_alert : bool) : M unit :=
  external (AnswerCallbackQuery id text show_alert).

Definition editMessageText (text : message) (chat message_id : jsval) : M unit :=
  external (EditMessageText text chat message_id).

Definition safeSendMessage (chatId : jsval) (text : message) : M unit :=
  try_catch (external (SendMessage chatId text))
            (fun _ => console_error "Failed to send message").

Definition getRandomRPSChoice : M jsval :=
  fun w =>
    let choicesArray := RPS_CHOICES_values in
    let i := (random_index E (clock w) mod length choicesArray)%nat in
    (Ok (match choicesArray !! i with Some c => JStr c | None => JUndefined end),
     tick w).

(** *** The session table and the heap *)

(** [activeHelperGames.get(sessionId)], with the object it refers to;
    [sessionId] is [None] for [NaN], which is never a key. *)
Definition lookup_session (w : world) (sessionId : option Z) : option (nat * session) :=
  match sessionId with
  | None => None
  | Some k =>
    match activeHelperGames w !! k with
    | None => None
    | Some ref =>
      match heap w !! ref with
      | None => None
      | Some s => Some (ref, s)
      end
    end
  end.

(** A new object. *)
Definition alloc (s : session) : M nat :=
  fun w => (Ok (length (heap w)), set_heap (fun h => (h ++ [s])%list) w).

(** An assignment to a property of the object at [ref], which leaves the
    object as [s]. *)
Definition write (ref : nat) (s : session) : M unit :=
  modify (set_heap (fun h => <[ref := s]> h)).

Definition games_set (k : Z) (ref : nat) : M unit :=
  modify (set_games (fun g => <[k := ref]> g)).

Definition games_delete (k : Z) : M unit :=
  modify (set_games (fun g => delete k g)).

(** *** Timers *)

(** [setTimeout(() => handleGameTimeout(sessionId, context), ...)] *)
Definition setTimeout (sessionId : Z) (context : string) : M nat :=
  fun w => (Ok (length (timers w)),
            set_timers (fun l => (l ++ [Some (sessionId, context)])%list) w).

Definition clearTimeout (t : nat) : M unit :=
  modify (set_timers (fun l => <[t := None]> l)).

(** *** Database interaction *)

Definition finalize_row (finalStatus : string) (finalGameState : game_state)
    (sessionId : Z) (r : row) : row :=
  if (session_id r =? sessionId)%Z
  then set_game_state_json finalGameState (set_db_status finalStatus r)
  else r.

(** [pool.query("UPDATE rps_sessions SET status = $1, game_state_json = $2,
    updated_at = NOW() WHERE session_id = $3", ...)], on a connection of
    its own. *)
Definition pool_query_final (finalStatus : string) (finalGameState : game_state)
    (sessionId : Z) : M unit :=
  external (Query (SqlFinal finalStatus finalGameState sessionId)) >>
  modify (set_table (map (finalize_row finalStatus finalGameState sessionId))).

Definition finalizeAndRecordOutcome (sessionId : Z) (finalStatus : string)
    (finalGameState : game_state) : M unit :=
  console_log "Finalizing game" >>
  try_catch
    (pool_query_final finalStatus finalGameState sessionId >>
     games_delete sessionId)
    (fun _ => console_error "CRITICAL: Failed to write final outcome to DB").

(** *** Core game logic *)

Definition runRPSPvB (ref : nat) (s : session) : M unit :=
  let playerRefHTML := escapeHTML (initiatorName (gameState_of s)) in
  let s := on_game_state (set_status (JStr "pvb_awaiting_player_choice")) s in
  write ref s >>
  games_set (session_id (fields s)) ref >>
  editMessageText (MsgVsBot playerRefHTML) (chat_id (fields s))
                  (helperMessageId (gameState_of s)) >>
  let* t := setTimeout (session_id (fields s)) "pvb_player_turn" in
  write ref (set_timeoutId (Some t) s).

Definition runRPSPvP (ref : nat) (s : session) : M unit :=
  let p1_id := initiator_id (fields s) in
  let p2_id := opponent_id (fields s) in
  let p1_name := escapeHTML (initiatorName (gameState_of s)) in
  let p2_name := escapeHTML (opponentName (gameState_of s)) in
  let s := on_game_state (set_status (JStr "pvp_awaiting_choices")) s in
  let s := on_game_state (set_p1_choice JNull) s in
  let s := on_game_state (set_p2_choice JNull) s in
  write ref s >>
  games_set (session_id (fields s)) ref >>
  editMessageText (MsgDuelStarted p1_name p2_name) (chat_id (fields s))
                  (helperMessageId (gameState_of s)) >>
  safeSendMessage p1_id (MsgDuelReady p2_name) >>
  safeSendMessage p2_id (MsgDuelReady p1_name) >>
  let* t := setTimeout (session_id (fields s)) "pvp_choices" in
  write ref (set_timeoutId (Some t) s).

Definition handleGameTimeout (sessionId : Z) (context : string) : M unit :=
  let* session := get (fun w => lookup_session w (Some sessionId)) in
  match session with
  | None => ret tt
  | Some (_, s) =>
    let chat := chat_id (fields s) in
    let message_id := helperMessageId (gameState_of s) in
    if String.eqb context "offer" then
      editMessageText MsgOfferExpired chat message_id >>
      finalizeAndRecordOutcome sessionId "completed_timeout" (gameState_of s)
    else if String.eqb context "pvb_player_turn" then
      editMessageText MsgPlayerTimedOut chat message_id >>
      finalizeAndRecordOutcome sessionId "completed_bot_win" (gameState_of s)
    else if String.eqb context "pvp_choices" then
      editMessageText MsgDuelTimedOut chat message_id >>
      finalizeAndRecordOutcome sessionId "completed_push" (gameState_of s)
    else ret tt
  end.

(** The event loop runs the task of timer [t], if it is still pending. *)
Definition fire (t : nat) : M unit :=
  let* task := get (fun w => timers w !! t) in
  match task with
  | Some (Some (sessionId, context)) =>
    clearTimeout t >> handleGameTimeout sessionId context
  | _ => ret tt
  end.

(** Modelled from the spec: [runUnifiedOffer] is called by
    [handleNewGameSession] and is not defined in the source. Offer mode is
    entered in state [awaiting_offer_response] (4.2), the offer is shown
    through the transport, whose failures are logged and block nothing
    (4.4), and a timer is armed whose expiry resolves to
    [completed_timeout] (4.2, 4.3), which is context ['offer'] of
    [handleGameTimeout]. *)
Definition runUnifiedOffer (ref : nat) (s : session) : M unit :=
  let s := on_game_state (set_status (JStr "awaiting_offer_response")) s in
  write ref s >>
  safeSendMessage (chat_id (fields s)) MsgOffer >>
  let* t := setTimeout (session_id (fields s)) "offer" in
  write ref (set_timeoutId (Some t) s).

(** Modelled from the spec: [runDirectChallenge] is called by
    [handleNewGameSession] and is not defined in the source. Direct-challenge
    mode is entered in state [awaiting_direct_response] and a timer with the
    same deadline is armed (4.2); [handleGameTimeout] has no context for
    this state. *)
Definition runDirectChallenge (ref : nat) (s : session) : M unit :=
  let s := on_game_state (set_status (JStr "awaiting_direct_response")) s in
  write ref s >>
  safeSendMessage (chat_id (fields s)) MsgChallenge >>
  let* t := setTimeout (session_id (fields s)) "direct_challenge" in
  write ref (set_timeoutId (Some t) s).

(** *** Main handlers *)

(** [WHERE main_bot_game_id = $2 AND status = 'pending_pickup'] *)
Definition claimable (mainBotGameId : string) (r : row) : bool :=
  String.eqb (main_bot_game_id r) mainBotGameId
  && String.eqb (db_status r) "pending_pickup".

(** [SET status = 'in_progress', helper_bot_id = $1] *)
Definition claimed (r : row) : row :=
  set_helper_bot_id (JStr BOT_ID) (set_db_status "in_progress" r).

(** Statements on the client run in its transaction, which others see
    only once it is committed. The client the pool hands out is taken to
    have no transaction open: [BEGIN] starts from the committed table. *)
Definition client_query_begin : M unit :=
  external (Query SqlBegin) >>
  modify (fun w => set_transaction (Some (rps_sessions w)) w).

Definition client_query_rollback : M unit :=
  external (Query SqlRollback) >>
  modify (set_transaction None).

Definition client_query_commit : M unit :=
  external (Query SqlCommit) >>
  modify (fun w => match transaction w with
                   | Some t => set_transaction None (set_table (fun _ => t) w)
                   | None => w
                   end).

(** The conditional update, [RETURNING *]: the rows it changed. *)
Definition client_query_claim (mainBotGameId : string) : M (list row) :=
  external (Query (SqlClaim BOT_ID mainBotGameId)) >>
  fun w =>
    let update := map (fun r => if claimable mainBotGameId r then claimed r else r) in
    let returned t := map claimed (List.filter (claimable mainBotGameId) t) in
    match transaction w with
    | Some t => (Ok (returned t), set_transaction (Some (update t)) w)
    | None => (Ok (returned (rps_sessions w)), set_table update w)
    end.

(** [client.release()]: the connection goes back to the pool. It does not
    end a transaction that is open on it. *)
Definition client_release : M unit :=
  modify (emit ClientRelease).

(** [client] is non-null exactly when [pool.connect()] succeeded, so the
    [if (client)] of the [catch] and [finally] blocks is the outer
    branch. *)
Definition handleNewGameSession (mainBotGameId : string) : M unit :=
  let* client := try_catch (external PoolConnect >> ret true)
                           (fun _ => ret false) in
  if client : bool then
    try_finally
      (try_catch
         (client_query_begin >>
          let* sessionRes := client_query_claim mainBotGameId in
          match sessionRes with
          | [] => client_query_rollback
          | r :: _ =>
            let s := {| fields := r; timeoutId := None |} in
            client_query_commit >>
            let* ref := alloc s in
            games_set (session_id (fields s)) ref >>
            if truthy (opponent_id (fields s))
            then runDirectChallenge ref s
            else runUnifiedOffer ref s
          end)
         (fun _ =>
            client_query_rollback >>
            console_error "Error handling new session"))
      client_release
  else console_error "Error handling new session".

Inductive player_key := key_p1_choice | key_p2_choice.

(** [gameState[playerKey]] *)
Definition get_choice (k : player_key) (g : game_state) : jsval :=
  match k with key_p1_choice => p1_choice g | key_p2_choice => p2_choice g end.

Definition set_choice (k : player_key) (v : jsval) (g : game_state) : game_state :=
  match k with key_p1_choice => set_p1_choice v g | key_p2_choice => set_p2_choice v g end.

(** Line 279 *)
Definition pvb_final_status (o : outcome) : string :=
  if String.eqb (result o) "win_player1" then "completed_p1_win"
  else if String.eqb (result o) "draw" then "completed_push"
  else "completed_bot_win".

(** Line 300 *)
Definition pvp_final_status (o : outcome) : string :=
  if String.eqb (result o) "win_player1" then "completed_p1_win"
  else if String.eqb (result o) "win_player2" then "completed_p2_win"
  else "completed_push".

Definition throw {A} (e : string) : M A := fun w => (Throw e, w).

Definition clear_if_set (t : option nat) : M unit :=
  match t with Some id => clearTimeout id | None => ret tt end.

(** [bot.on('callback_query', ...)] *)
Definition on_callback_query (callbackQuery : callback_query) : M unit :=
  let data := cq_data callbackQuery in
  let '(action, sessionIdStr, param0) := destructure (split_colon data) in
  let sessionId := parseInt10 sessionIdStr in
  let clickerId := js_String (JNum (user_id (cq_from callbackQuery))) in
  let answer := answerCallbackQuery (cq_id callbackQuery) in
  let* session := get (fun w => lookup_session w sessionId) in
  match session, sessionId with
  | Some (ref, s), Some sessionId =>
    clear_if_set (timeoutId s) >>
    let gameState := gameState_of s in
    let chat := chat_id (fields s) in
    let is_initiator := String.eqb clickerId (js_String (initiator_id (fields s))) in
    let is_opponent := String.eqb clickerId (js_String (opponent_id (fields s))) in
    (* Unified offer callbacks *)
    if String.eqb action "cf_helper_cancel" && is_initiator then
      answer None false >>
      try_catch (external (DeleteMessage chat (helperMessageId gameState)))
                (fun _ => ret tt) >>
      finalizeAndRecordOutcome sessionId "completed_cancelled" gameState
    else if String.eqb action "cf_helper_accept_bot" && is_initiator then
      answer None false >>
      runRPSPvB ref s
    else if String.eqb action "cf_helper_accept_pvp" && negb is_initiator then
      let s := on_fields (set_opponent_id (JStr clickerId)) s in
      let s := on_game_state
                 (set_opponentName
                    (getPlayerDisplayReference (Some (cq_from callbackQuery)))) s in
      write ref s >>
      answer None false >>
      runRPSPvP ref s
    (* Direct challenge callbacks *)
    else if String.eqb action "cf_helper_accept_direct" && is_opponent then
      answer None false >>
      runRPSPvP ref s
    else if String.eqb action "cf_helper_decline_direct" && is_opponent then
      answer None false >>
      editMessageText (MsgDeclined (escapeHTML (opponentName gameState)))
                      chat (helperMessageId gameState) >>
      finalizeAndRecordOutcome sessionId "completed_cancelled" gameState
    (* Game action callbacks *)
    else if String.eqb action "rps_helper_pvb_choice" then
      if is_initiator then
        answer None false >>
        let playerChoice := param0 in
        let* botChoice := getRandomRPSChoice in
        let outcome := determineRPSOutcome playerChoice botChoice
                         (initiatorName gameState) (JStr "Bot") in
        let finalStatus := pvb_final_status outcome in
        editMessageText
          (MsgResult (template_of (RPS_EMOJIS (js_String playerChoice)))
                     (template_of (RPS_EMOJIS (js_String botChoice)))
                     (description outcome))
          chat (helperMessageId gameState) >>
        finalizeAndRecordOutcome sessionId finalStatus
          (set_bot_choice botChoice (set_p1_choice playerChoice gameState))
      else ret tt
    else if String.eqb action "rps_helper_pvp_submit" then
      let choice := param0 in
      let playerKey :=
        if is_initiator then Some key_p1_choice
        else if is_opponent then Some key_p2_choice
        else None in
      match playerKey with
      | Some k =>
        if negb (truthy (get_choice k gameState)) then
          let s := on_game_state (set_choice k choice) s in
          let gameState := gameState_of s in
          write ref s >>
          answer (Some MsgChoiceLockedIn) false >>
          match cq_message callbackQuery with
          | Some message_id =>
            editMessageText MsgLockedInSecretly (JStr clickerId) message_id
          | None => throw "TypeError"
          end >>
          if truthy (p1_choice gameState) && truthy (p2_choice gameState) then
            clear_if_set (timeoutId s) >>
            let p1_name := escapeHTML (initiatorName gameState) in
            let p2_name := escapeHTML (opponentName gameState) in
            let outcome := determineRPSOutcome (p1_choice gameState)
                             (p2_choice gameState) (JStr p1_name) (JStr p2_name) in
            let finalStatus := pvp_final_status outcome in
            editMessageText
              (MsgDuelResult
                 p1_name (template_of (RPS_EMOJIS (js_String (p1_choice gameState))))
                 p2_name (template_of (RPS_EMOJIS (js_String (p2_choice gameState))))
                 (description outcome))
              chat (helperMessageId gameState) >>
            finalizeAndRecordOutcome sessionId finalStatus gameState
          else ret tt
        else answer (Some MsgAlreadyChosen) true
      | None => answer (Some MsgAlreadyChosen) true
      end
    else ret tt
  | _, _ => answer (Some MsgNoLongerActive) true
  end.

(** *** Two submissions that overlap

    Between recording the choice (line 291) and testing whether both
    choices are in (line 295) the handler of a submission awaits the
    transport twice (lines 292 and 293); the handler of another event runs
    in between when that event arrives then. [submit_until_verdict] is the
    handler of a submission up to the end of those two calls; it returns
    the session object it holds and the session id when it goes on.
    [submit_verdict] is what the handler does from line 295, on the
    session object as it is by then. *)
Definition submit_until_verdict (callbackQuery : callback_query)
  : M (option (nat * Z)) :=
  let data := cq_data callbackQuery in
  let '(action, sessionIdStr, param0) := destructure (split_colon data) in
  let sessionId := parseInt10 sessionIdStr in
  let clickerId := js_String (JNum (user_id (cq_from callbackQuery))) in
  let answer := answerCallbackQuery (cq_id callbackQuery) in
  let* session := get (fun w => lookup_session w sessionId) in
  match session, sessionId with
  | Some (ref, s), Some sessionId =>
    clear_if_set (timeoutId s) >>
    let gameState := gameState_of s in
    let is_initiator := String.eqb clickerId (js_String (initiator_id (fields s))) in
    let is_opponent := String.eqb clickerId (js_String (opponent_id (fields s))) in
    let choice := param0 in
    let playerKey :=
      if is_initiator then Some key_p1_choice
      else if is_opponent then Some key_p2_choice
      else None in
    match playerKey with
    | Some k =>
      if negb (truthy (get_choice k gameState)) then
        let s := on_game_state (set_choice k choice) s in
        write ref s >>
        answer (Some MsgChoiceLockedIn) false >>
        match cq_message callbackQuery with
        | Some message_id =>
          editMessageText MsgLockedInSecretly (JStr clickerId) message_id
        | None => throw "TypeError"
        end >>
        ret (Some (ref, sessionId))
      else answer (Some MsgAlreadyChosen) true >> ret None
    | None => answer (Some MsgAlreadyChosen) true >> ret None
    end
  | _, _ => answer (Some MsgNoLongerActive) true >> ret None
  end.

Definition submit_verdict (ref : nat) (sessionId : Z) : M unit :=
  let* session := get (fun w => heap w !! ref) in
  match session with
  | Some s =>
    let gameState := gameState_of s in
    let chat := chat_id (fields s) in
    if truthy (p1_choice gameState) && truthy (p2_choice gameState) then
      clear_if_set (timeoutId s) >>
      let p1_name := escapeHTML (initiatorName gameState) in
      let p2_name := escapeHTML (opponentName gameState) in
      let outcome := determineRPSOutcome (p1_choice gameState)
                       (p2_choice gameState) (JStr p1_name) (JStr p2_name) in
      let finalStatus := pvp_final_status outcome in
      editMessageText
        (MsgDuelResult
           p1_name (template_of (RPS_EMOJIS (js_String (p1_choice gameState))))
           p2_name (template_of (RPS_EMOJIS (js_String (p2_choice gameState))))
           (description outcome))
        chat (helperMessageId gameState) >>
      finalizeAndRecordOutcome sessionId finalStatus gameState
    else ret tt
  | None => ret tt
  end.

(** The handler of a submission, in these two steps. *)
Definition submit_in_two_steps (callbackQuery : callback_query) : M unit :=
  let* held := submit_until_verdict callbackQuery in
  match held with
  | Some (ref, sessionId) => submit_verdict ref sessionId
  | None => ret tt
  end.

End Worker.

(** ** The event loop *)

(** The state a computation leaves. *)
Definition exec {A} (m : M A) (w : world) : world := snd (m w).

(** What the event loop delivers to the worker: a pickup notification, an
    action event, the expiry of a timer. An exception that escapes a
    handler is a rejected promise nobody awaits; the loop goes on. *)
Inductive event :=
| Notification (mainBotGameId : string)
| Action (callbackQuery : callback_query)
| Expiry (t : nat).

Definition handle (E : env) (BOT_ID : string) (ev : event) : M unit :=
  match ev with
  | Notification mainBotGameId => handleNewGameSession E BOT_ID mainBotGameId
  | Action callbackQuery => on_callback_query E callbackQuery
  | Expiry t => fire E t
  end.

Fixpoint run (E : env) (BOT_ID : string) (evs : list event) (w : world) : world :=
  match evs with
  | [] => w
  | ev :: rest => run E BOT_ID rest (exec (handle E BOT_ID ev) w)
  end.

(** ** Vocabulary of the properties *)

(** *** Action events *)

(** The parts of an action event, as the handler reads them (lines 235 to
    238). *)
Definition action_of (cq : callback_query) : string :=
  (destructure (split_colon (cq_data cq))).1.1.

Definition sessionId_of (cq : callback_query) : option Z :=
  parseInt10 (destructure (split_colon (cq_data cq))).1.2.

Definition param_of (cq : callback_query) : jsval :=
  (destructure (split_colon (cq_data cq))).2.

Definition clickerId_of (cq : callback_query) : string :=
  js_String (JNum (user_id (cq_from cq))).

(** [playerKey] of the submit branch (lines 286 to 288). *)
Definition playerKey_of (clickerId : string) (s : session) : option player_key :=
  if String.eqb clickerId (js_String (initiator_id (fields s)))
  then Some key_p1_choice
  else if String.eqb clickerId (js_String (opponent_id (fields s)))
  then Some key_p2_choice
  else None.

Definition other_key (k : player_key) : player_key :=
  match k with key_p1_choice => key_p2_choice | key_p2_choice => key_p1_choice end.


(** *** Traces *)

(** The effects a handler added to the trace. *)
Definition new_effects (w w' : world) : list effect :=
  drop (length (effects w)) (effects w').

(** The statements sent to the datastore among some effects. *)
Definition queries (l : list effect) : list statement :=
  omap (fun e => match e with Query q => Some q | _ => None end) l.

(** *** Outcomes *)

(** The [result] field, written on the two normalised keys alone. *)
Definition verdict (p1c p2c : string) : string :=
  if negb (includes RPS_CHOICES_values p1c)
     || negb (includes RPS_CHOICES_values p2c) then "error"
  else if String.eqb p1c p2c then "draw"
  else if match RPS_RULES p1c with
          | Some r => String.eqb (beats r) p2c
          | None => false
          end then "win_player1"
  else "win_player2".

(** The verdict of a duel whose two choices are recorded, as a terminal
    status (lines 297 to 300). *)
Definition duel_status (g : game_state) : string :=
  pvp_final_status
    (determineRPSOutcome (p1_choice g) (p2_choice g)
       (JStr (escapeHTML (initiatorName g))) (JStr (escapeHTML (opponentName g)))).

(** The contexts [handleGameTimeout] acts on, each with the terminal status
    it passes to the finalizer. *)
Definition expiries : list (string * string) :=
  [("offer", "completed_timeout");
   ("pvb_player_turn", "completed_bot_win");
   ("pvp_choices", "completed_push")].

(** What [finalizeAndRecordOutcome] leaves, by the outcome of its write. *)
Definition finalized (ok : bool) (sessionId : Z) (finalStatus : string)
    (finalGameState : game_state) (w : world) : world :=
  let w1 := tick (emit (Query (SqlFinal finalStatus finalGameState sessionId))
                       (emit (ConsoleLog "Finalizing game") w)) in
  if ok
  then set_games (fun g => delete sessionId g)
         (set_table (map (finalize_row finalStatus finalGameState sessionId)) w1)
  else emit (ConsoleError "CRITICAL: Failed to write final outcome to DB") w1.

(** The table after the conditional update of the claim. *)
Definition claim_update (BOT_ID mainBotGameId : string) (t : list row) : list row :=
  map (fun r => if claimable mainBotGameId r then claimed BOT_ID r else r) t.

(** The session object the claim of row [r] leaves in memory, once the mode
    is entered: the sub-state of the mode, and the timer armed for it. *)
Definition entered (BOT_ID : string) (r : row) (substate : string) (timer : nat) : session :=
  set_timeoutId (Some timer)
    (on_game_state (set_status (JStr substate))
       {| fields := claimed BOT_ID r; timeoutId := None |}).

(** *** Sub-states *)

(** The sub-states of play, as the source names them. *)
Definition in_play (v : jsval) : Prop :=
  v = JStr "pvb_awaiting_player_choice" \/ v = JStr "pvp_awaiting_choices".

(** What a handler may do to the status of a session object. *)
Definition status_step (s s' : session) : Prop :=
  status (gameState_of s') = status (gameState_of s)
  \/ in_play (status (gameState_of s')).

(** Every object of heap [h] is still in [h'], its status changed, if at
    all, to a sub-state of play. *)
Definition heap_step (h h' : list session) : Prop :=
  forall ref s, h !! ref = Some s ->
                exists s', h' !! ref = Some s' /\ status_step s s'.


(** *** Texts and event data *)

(** The integers that JavaScript numbers hold exactly, print in decimal and
    read back: those up to [Number.MAX_SAFE_INTEGER] in absolute value. *)
Definition safe_integer (n : Z) : Prop := (Z.abs n <= 9007199254740991)%Z.

(** Every key of the session table is such an integer. *)
Definition safe_keys (w : world) : Prop :=
  map_Forall (fun k _ => safe_integer k) (activeHelperGames w).

(** [`${action}:${session.session_id}:${choice}`], the [callback_data] of
    the choice buttons (lines 122 to 124 and 158 to 160). *)
Definition callback_data (action : string) (sessionId : Z) (choice : string) : string :=
  action ++ ":" ++ js_String (JNum sessionId) ++ ":" ++ choice.

(** No character of [s] is a colon. *)
Fixpoint colon_free (s : string) : bool :=
  match s with
  | EmptyString => true
  | String c r => negb (Ascii.eqb c ":") && colon_free r
  end.

(** Every character of [s] satisfies [p]. *)
Fixpoint string_forall (p : ascii -> bool) (s : string) : bool :=
  match s with
  | EmptyString => true
  | String c r => p c && string_forall p r
  end.

(** The characters that open or close markup in HTML text and attribute
    values. *)
Definition markup_char (c : ascii) : bool :=
  Ascii.eqb c "<" || Ascii.eqb c ">" || Ascii.eqb c "034" || Ascii.eqb c "'".

(** Reads the five entities of [escapeHTML] back. *)
Fixpoint unescape (s : string) : string :=
  match s with
  | EmptyString => EmptyString
  | String "&" (String "a" (String "m" (String "p" (String ";" r)))) =>
    String "&" (unescape r)
  | String "&" (String "l" (String "t" (String ";" r))) =>
    String "<" (unescape r)
  | String "&" (String "g" (String "t" (String ";" r))) =>
    String ">" (unescape r)
  | String "&" (String "q" (String "u" (String "o" (String "t" (String ";" r))))) =>
    String "034" (unescape r)
  | String "&" (String "#" (String "0" (String "3" (String "9" (String ";" r))))) =>
    String "'" (unescape r)
  | String c r => String c (unescape r)
  end.

(** The actions the handler has a branch for. *)
Definition known_actions : list string :=
  ["cf_helper_cancel"; "cf_helper_accept_bot"; "cf_helper_accept_pvp";
   "cf_helper_accept_direct"; "cf_helper_decline_direct";
   "rps_helper_pvb_choice"; "rps_helper_pvp_submit"].

(** *** Rows *)

(** The columns of a row that say which game it is and who plays it. *)
Definition identity_columns (r : row) : Z * string * jsval * jsval * jsval :=
  (session_id r, main_bot_game_id r, chat_id r, initiator_id r, opponent_id r).

(** The statuses the worker writes when a session ends. *)
Definition completed_statuses : list string :=
  ["completed_cancelled"; "completed_timeout"; "completed_p1_win";
   "completed_p2_win"; "completed_bot_win"; "completed_push"].

(** The status of a row stays, goes from [pending_pickup] to [in_progress],
    or becomes one of the completed statuses. *)
Definition status_forward (a b : string) : Prop :=
  b = a \/ (a = "pending_pickup" /\ b = "in_progress") \/ b ∈ completed_statuses.

Definition row_step (r r' : row) : Prop :=
  identity_columns r' = identity_columns r
  /\ status_forward (db_status r) (db_status r').

Definition rows_step (t t' : list row) : Prop := Forall2 row_step t t'.

(** The timers after the handler of an action event cleared the one its
    session object remembers. *)
Definition disarmed (s : session) (l : list (option (Z * string)))
  : list (option (Z * string)) :=
  match timeoutId s with Some t => <[t := None]> l | None => l end.

(** *** Consistency of the memory of the worker *)

(** Every entry of the session table refers to a session object that
    carries the key as its session id, and the timer such an object
    remembers is a task that is done with or a pending task of that very
    session. *)
Definition consistent (w : world) : Prop :=
  forall k ref,
    activeHelperGames w !! k = Some ref ->
    exists s,
      heap w !! ref = Some s /\ session_id (fields s) = k /\
      forall t, timeoutId s = Some t ->
                timers w !! t = Some None
                \/ exists context, timers w !! t = Some (Some (k, context)).

(** The session an event is about: the one its data names, the one whose
    timer expires, the ones whose rows a notification can claim. *)
Definition concerns (w : world) (ev : event) (k : Z) : Prop :=
  match ev with
  | Action cq => sessionId_of cq = Some k
  | Expiry t => exists context, timers w !! t = Some (Some (k, context))
  | Notification mainBotGameId =>
    exists r, r ∈ rps_sessions w /\ claimable mainBotGameId r = true
              /\ session_id r = k
  end.

(** ** Configuration *)

(** How the top of the module ends (lines 9 to 16): the worker is created
    with its [BOT_ID], the process exits after logging, or an exception
    leaves the module. *)
Inductive startup :=
| Started (BOT_ID : string)
| Exited (code : Z) (logged : string)
| Crashed (e : string).

(** A variable of [process.env] is a string or [undefined]. *)
Definition env_value (v : option string) : jsval :=
  match v with Some s => JStr s | None => JUndefined end.

(** [BOT_TOKEN.split(':')[0]] is evaluated before the test of the two
    variables; [split] of [undefined] is a [TypeError], and the array
    [split] returns has an element 0. *)
Definition configuration (RPS_BOT_TOKEN DATABASE_URL : option string) : startup :=
  let BOT_TOKEN := env_value RPS_BOT_TOKEN in
  let DATABASE_URL := env_value DATABASE_URL in
  match RPS_BOT_TOKEN with
  | None => Crashed "TypeError"
  | Some token =>
    let BOT_ID := hd "" (split_colon token) in
    if negb (truthy BOT_TOKEN) || negb (truthy DATABASE_URL)
    then Exited 1 "RPS HELPER: CRITICAL: RPS_BOT_TOKEN or DATABASE_URL is missing."
    else Started BOT_ID
  end.

(** ** A scenario, for the examples *)

(** Transport and datastore answer every call; the bot draws rock. *)
Definition reliable : env :=
  {| succeeds := fun _ => true; random_index := fun _ => 0 |}.

(** No call to the transport or the datastore goes through. *)
Definition unreachable_services : env :=
  {| succeeds := fun _ => false; random_index := fun _ => 0 |}.

Definition new_game_state : game_state :=
  {| status := JUndefined; initiatorName := JStr "Ann";
     opponentName := JUndefined; helperMessageId := JNum 55;
     p1_choice := JUndefined; p2_choice := JUndefined;
     bot_choice := JUndefined |}.

(** An open offer of user 100, waiting to be picked up. *)
Definition pending_row : row :=
  {| session_id := 7; main_bot_game_id := "g7"; db_status := "pending_pickup";
     helper_bot_id := JNull; chat_id := JNum (-1001);
     initiator_id := JStr "100"; opponent_id := JNull;
     game_state_json := new_game_state |}.

(** A challenge of user 100 to user 200, waiting to be picked up. *)
Definition challenge_row : row :=
  {| session_id := 8; main_bot_game_id := "g8"; db_status := "pending_pickup";
     helper_bot_id := JNull; chat_id := JNum (-1001);
     initiator_id := JStr "100"; opponent_id := JStr "200";
     game_state_json := new_game_state |}.

Definition start : world :=
  {| heap := []; activeHelperGames := ∅;
     rps_sessions := [pending_row; challenge_row];
     transaction := None; timers := []; clock := 0; effects := [] |}.

Definition ann : user :=
  {| user_id := 100; username := JStr "ann"; first_name := JStr "Ann";
     telegram_id := JUndefined |}.

Definition bob : user :=
  {| user_id := 200; username := JUndefined; first_name := JStr "Bob";
     telegram_id := JUndefined |}.

Definition eve : user :=
  {| user_id := 300; username := JUndefined; first_name := JUndefined;
     telegram_id := JUndefined |}.

Definition click (u : user) (data : string) : callback_query :=
  {| cq_id := "q"; cq_data := data; cq_from := u; cq_message := Some (JNum 9) |}.

(** Session 7 is claimed and offered. *)
Definition offered : world :=
  exec (handleNewGameSession reliable "4242" "g7") start.

(** Ann plays the bot. *)
Definition versus_bot : world :=
  exec (on_callback_query reliable (click ann "cf_helper_accept_bot:7")) offered.

(** The session object of the game against the bot. *)
Definition bot_session : session :=
  {| fields := set_game_state_json
                 (set_status (JStr "pvb_awaiting_player_choice") new_game_state)
                 (claimed "4242" pending_row);
     timeoutId := Some 1%nat |}.

(** Or Bob accepts the offer: a duel of Ann and Bob. *)
Definition duel : world :=
  exec (on_callback_query reliable (click bob "cf_helper_accept_pvp:7")) offered.

(** The session object of the duel, as accepting the offer left it. *)
Definition duel_session : session :=
  {| fields := set_game_state_json
                 (set_p2_choice JNull
                    (set_p1_choice JNull
                       (set_status (JStr "pvp_awaiting_choices")
                          (set_opponentName (JStr "Bob") new_game_state))))
                 (set_opponent_id (JStr "200") (claimed "4242" pending_row));
     timeoutId := Some 1%nat |}.

(** Ann has locked her choice in, Bob has not. *)
Definition duel_ann_chose : world :=
  exec (on_callback_query reliable (click ann "rps_helper_pvp_submit:7:rock")) duel.



(** Session 8 is claimed and Bob is challenged. *)
Definition challenged : world :=
  exec (handleNewGameSession reliable "4242" "g8") start.

(** Every call is answered but the one numbered [n]. *)
Definition failing_at (n : nat) : env :=
  {| succeeds := fun k => negb (k =? n)%nat; random_index := fun _ => 0%nat |}.

(** The calls numbered below [n] are answered, the later ones rejected. *)
Definition failing_from (n : nat) : env :=
  {| succeeds := fun k => (k <? n)%nat; random_index := fun _ => 0%nat |}.

(** A second row of game [g7], waiting to be picked up as well. *)
Definition twin_row : row :=
  {| session_id := 9; main_bot_game_id := "g7"; db_status := "pending_pickup";
     helper_bot_id := JNull; chat_id := JNum (-1001);
     initiator_id := JStr "100"; opponent_id := JNull;
     game_state_json := new_game_state |}.

Definition double_booked : world :=
  {| heap := []; activeHelperGames := ∅;
     rps_sessions := [pending_row; twin_row];
     transaction := None; timers := []; clock := 0; effects := [] |}.




(** Sessions 7 and 8 are both claimed. *)
Definition two_sessions : world :=
  run reliable "4242" [Notification "g7"; Notification "g8"] start.

(** * Properties *)

(** ** The outcome resolver *)

Lemma includes_choices (x : string) :
  includes RPS_CHOICES_values x = true <->
  x = "rock" \/ x = "paper" \/ x = "scissors".
Proof.
  unfold includes, RPS_CHOICES_values; simpl.
  rewrite !orb_true_iff, !String.eqb_eq. intuition discriminate.
Qed.

Lemma elem_of_choices (x : string) :
  x ∈ RPS_CHOICES_values <-> x = "rock" \/ x = "paper" \/ x = "scissors".
Proof.
  unfold RPS_CHOICES_values. rewrite !elem_of_cons, elem_of_nil.
  unfold RPS_CHOICES.ROCK, RPS_CHOICES.PAPER, RPS_CHOICES.SCISSORS. tauto.
Qed.

Lemma RPS_RULES_defined (k : string) :
  includes RPS_CHOICES_values k = true -> is_Some (RPS_RULES k).
Proof.
  intros [-> | [-> | ->]]%includes_choices; vm_compute; eauto.
Qed.

Lemma toLowerCase_choice (x : string) :
  x ∈ RPS_CHOICES_values -> normalise (JStr x) = x.
Proof.
  intros [-> | [-> | ->]]%elem_of_choices; reflexivity.
Qed.

Lemma result_verdict (k1 k2 n1 n2 : jsval) :
  result (determineRPSOutcome k1 k2 n1 n2) = verdict (normalise k1) (normalise k2).
Proof.
  unfold determineRPSOutcome, verdict, normalise.
  repeat match goal with |- context [if ?c then _ else _] => destruct c end;
    reflexivity.
Qed.

Ltac no_beats :=
  match goal with H : beats_rel _ _ |- _ => solve [inversion H] end.

Ltac settle_verdict :=
  repeat split; intros;
  try discriminate; try congruence; try no_beats;
  try (constructor; fail);
  try match goal with H : _ /\ _ |- _ => destruct H end;
  try congruence;
  try match goal with
      | H : beats_rel _ _ -> False |- _ => exfalso; apply H; constructor
      end.

(** C1. On two choices of the closed set, the resolver answers [draw]
    exactly when they are equal, [win_player1] exactly when the first beats
    the second in the cyclic relation, and [win_player2] otherwise; rock
    against scissors is a win of the first player, paper against paper a
    draw, scissors against rock a win of the second player. *)
Theorem determineRPSOutcome_verdict (a b : string) (n1 n2 : jsval) :
  a ∈ RPS_CHOICES_values -> b ∈ RPS_CHOICES_values ->
  let r := result (determineRPSOutcome (JStr a) (JStr b) n1 n2) in
  (r = "draw" <-> a = b) /\
  (r = "win_player1" <-> beats_rel a b) /\
  (r = "win_player2" <-> a <> b /\ ~ beats_rel a b) /\
  result (determineRPSOutcome (JStr "rock") (JStr "scissors") n1 n2) = "win_player1" /\
  result (determineRPSOutcome (JStr "paper") (JStr "paper") n1 n2) = "draw" /\
  result (determineRPSOutcome (JStr "scissors") (JStr "rock") n1 n2) = "win_player2".
Proof.
  intros Ha Hb. cbv zeta. rewrite !result_verdict.
  apply elem_of_choices in Ha, Hb.
  destruct Ha as [-> | [-> | ->]], Hb as [-> | [-> | ->]];
    vm_compute; settle_verdict.
Qed.

Lemma determineRPSOutcome_verdict_witness :
  let r := result (determineRPSOutcome (JStr "paper") (JStr "rock")
                     (JStr "Ann") (JStr "Bob")) in
  (r = "draw" <-> "paper" = "rock") /\
  (r = "win_player1" <-> beats_rel "paper" "rock") /\
  (r = "win_player2" <-> "paper" <> "rock" /\ ~ beats_rel "paper" "rock") /\
  result (determineRPSOutcome (JStr "rock") (JStr "scissors")
            (JStr "Ann") (JStr "Bob")) = "win_player1" /\
  result (determineRPSOutcome (JStr "paper") (JStr "paper")
            (JStr "Ann") (JStr "Bob")) = "draw" /\
  result (determineRPSOutcome (JStr "scissors") (JStr "rock")
            (JStr "Ann") (JStr "Bob")) = "win_player2".
Proof.
  apply (determineRPSOutcome_verdict "paper" "rock" (JStr "Ann") (JStr "Bob"));
    apply elem_of_choices; auto.
Defined.

(** C10. Swapping two valid choices swaps [win_player1] and [win_player2]
    and keeps [draw]; the [result] field is the same whatever display names
    are passed. *)
Theorem determineRPSOutcome_swap (a b n1 n2 m1 m2 : jsval) :
  valid_choice a -> valid_choice b ->
  (result (determineRPSOutcome a b n1 n2) = "win_player1" <->
   result (determineRPSOutcome b a m1 m2) = "win_player2") /\
  (result (determineRPSOutcome a b n1 n2) = "draw" <->
   result (determineRPSOutcome b a m1 m2) = "draw") /\
  result (determineRPSOutcome a b n1 n2) = result (determineRPSOutcome a b m1 m2).
Proof.
  unfold valid_choice. intros Ha Hb. rewrite !result_verdict.
  apply includes_choices in Ha, Hb.
  destruct Ha as [-> | [-> | ->]], Hb as [-> | [-> | ->]];
    vm_compute; settle_verdict.
Qed.

Lemma determineRPSOutcome_swap_witness :
  (result (determineRPSOutcome (JStr "Rock") (JStr "scissors") JUndefined (JStr "Bot"))
   = "win_player1" <->
   result (determineRPSOutcome (JStr "scissors") (JStr "Rock") (JStr "x") JNull)
   = "win_player2") /\
  (result (determineRPSOutcome (JStr "Rock") (JStr "scissors") JUndefined (JStr "Bot"))
   = "draw" <->
   result (determineRPSOutcome (JStr "scissors") (JStr "Rock") (JStr "x") JNull)
   = "draw") /\
  result (determineRPSOutcome (JStr "Rock") (JStr "scissors") JUndefined (JStr "Bot"))
  = result (determineRPSOutcome (JStr "Rock") (JStr "scissors") (JStr "x") JNull).
Proof.
  apply (determineRPSOutcome_swap (JStr "Rock") (JStr "scissors")
           JUndefined (JStr "Bot") (JStr "x") JNull); reflexivity.
Defined.

(** ** Running handlers *)

(** Reads the fields of a state built by the setters. *)
Ltac proj :=
  cbn [heap activeHelperGames rps_sessions transaction timers clock effects
       set_heap set_games set_table set_transaction set_timers tick emit
       fst snd exec] in *.

(** Unfolds the monad and the operations that cannot reject. *)
Ltac mon :=
  unfold clear_if_set, answerCallbackQuery, editMessageText, safeSendMessage,
    console_log, console_error, write, games_set, games_delete,
    clearTimeout, setTimeout, alloc, getRandomRPSChoice, pool_query_final,
    bind, ret, get, modify, throw, try_catch, try_finally in *;
  cbv beta.

Lemma external_eq (E : env) (e : effect) (w : world) :
  external E e w =
  (if succeeds E (clock w) then Ok tt else Throw "rejected", tick (emit e w)).
Proof. unfold external. destruct (succeeds E (clock w)); reflexivity. Qed.

(** *** The finalizer *)

Lemma finalizeAndRecordOutcome_eq (E : env) sessionId finalStatus finalGameState w :
  finalizeAndRecordOutcome E sessionId finalStatus finalGameState w =
  (Ok tt, finalized (succeeds E (clock w)) sessionId finalStatus finalGameState w).
Proof.
  unfold finalizeAndRecordOutcome, finalized. mon. rewrite external_eq. proj.
  destruct (succeeds E (clock w)); reflexivity.
Qed.

(** Case analysis on every external call of the goal, in order. *)
Ltac ext :=
  repeat match goal with
  | |- context [external ?E ?e ?w] =>
    rewrite (external_eq E e w);
    destruct (succeeds E (clock w)) eqn:?; cbv beta iota; proj
  | |- context [finalizeAndRecordOutcome ?E ?a ?b ?c ?w] =>
    rewrite (finalizeAndRecordOutcome_eq E a b c w); cbv beta iota; proj
  end.

Lemma lookup_session_heap w k ref s :
  lookup_session w k = Some (ref, s) -> heap w !! ref = Some s.
Proof.
  unfold lookup_session. destruct k as [k|]; [|discriminate].
  destruct (activeHelperGames w !! k) as [r|]; [|discriminate].
  destruct (heap w !! r) eqn:?; [|discriminate]. congruence.
Qed.

Lemma lookup_session_games w k ref s :
  lookup_session w (Some k) = Some (ref, s) -> activeHelperGames w !! k = Some ref.
Proof.
  unfold lookup_session.
  destruct (activeHelperGames w !! k) as [r|]; [|discriminate].
  destruct (heap w !! r) eqn:?; [|discriminate]. congruence.
Qed.

Lemma finalize_row_status st gs sid (l : list row) (r : row) :
  r ∈ map (finalize_row st gs sid) l -> session_id r = sid -> db_status r = st.
Proof.
  rewrite list_elem_of_In, in_map_iff. intros (r0 & <- & _).
  unfold finalize_row. destruct (session_id r0 =? sid)%Z eqn:Hk; cbn.
  - reflexivity.
  - intros Hr. apply Z.eqb_neq in Hk. contradiction.
Qed.

(** C2, as the code has it. The finalizer attempts one write of the
    terminal status and returns normally; the session is removed from the
    in-memory table when that write succeeded, and the table is left as it
    was, the session still in it, when the write failed. *)
Theorem finalize_evicts_after_a_successful_write
    (E : env) (sessionId : Z) (finalStatus : string) (snapshot : game_state)
    (w : world) :
  let ok := succeeds E (clock w) in
  let w' := exec (finalizeAndRecordOutcome E sessionId finalStatus snapshot) w in
  fst (finalizeAndRecordOutcome E sessionId finalStatus snapshot w) = Ok tt /\
  new_effects w w' =
    ([ConsoleLog "Finalizing game";
      Query (SqlFinal finalStatus snapshot sessionId)]
     ++ (if ok then []
         else [ConsoleError "CRITICAL: Failed to write final outcome to DB"]))%list /\
  activeHelperGames w' =
    (if ok then delete sessionId (activeHelperGames w) else activeHelperGames w) /\
  rps_sessions w' =
    (if ok then map (finalize_row finalStatus snapshot sessionId) (rps_sessions w)
     else rps_sessions w) /\
  heap w' = heap w /\ timers w' = timers w.
Proof.
  cbv zeta. unfold exec, new_effects.
  rewrite finalizeAndRecordOutcome_eq. unfold finalized.
  destruct (succeeds E (clock w)); proj;
    rewrite <- ?app_assoc, drop_app_length; repeat split; reflexivity.
Qed.

(** C2 as stated fails: with the datastore out of reach the write of the
    finalizer fails, and session 7 is still in the in-memory table after the
    call. *)
Lemma finalize_failed_write_keeps_session :
  let w' := exec (finalizeAndRecordOutcome unreachable_services 7
                    "completed_cancelled" new_game_state) offered in
  activeHelperGames offered !! 7%Z = Some 0%nat /\
  activeHelperGames w' !! 7%Z = Some 0%nat /\
  activeHelperGames w' !! 7%Z <> None.
Proof. vm_compute. repeat split; discriminate. Qed.


(** *** Timeouts *)

Lemma handleGameTimeout_absent (E : env) sessionId context w :
  lookup_session w (Some sessionId) = None ->
  handleGameTimeout E sessionId context w = (Ok tt, w).
Proof. intros H. unfold handleGameTimeout. mon. rewrite H. reflexivity. Qed.

Lemma handleGameTimeout_present (E : env) sessionId context finalStatus w ref s :
  lookup_session w (Some sessionId) = Some (ref, s) ->
  (context, finalStatus) ∈ expiries ->
  exists text,
    let w1 := tick (emit (EditMessageText text (chat_id (fields s))
                            (helperMessageId (gameState_of s))) w) in
    handleGameTimeout E sessionId context w =
    if succeeds E (clock w)
    then (Ok tt, finalized (succeeds E (S (clock w))) sessionId finalStatus
                   (gameState_of s) w1)
    else (Throw "rejected", w1).
Proof.
  intros H Hc. unfold handleGameTimeout. mon. rewrite H.
  unfold expiries in Hc. rewrite !elem_of_cons, elem_of_nil in Hc.
  destruct Hc as [Hc | [Hc | [Hc | []]]]; injection Hc as -> ->;
    cbn [String.eqb Ascii.eqb Bool.eqb]; eexists; cbv zeta;
    rewrite external_eq; destruct (succeeds E (clock w)); cbv beta iota;
    rewrite ?finalizeAndRecordOutcome_eq; reflexivity.
Qed.



(** C3, as the code has it. The expiry re-checks one thing, that the
    session is still in memory. When it is not, nothing changes and no
    finalize is performed. When it is, the expiry goes on whatever
    sub-state the session is in, its [status] is not read: it edits the
    message, and when that edit goes through it sends the write of the
    status of the timer's context, which evicts the session when it
    succeeds; when the edit is rejected nothing is finalized and the
    session stays in memory. *)
Theorem timeout_rechecks_presence_only
    (E : env) (w : world) (sessionId : Z) (context : string) :
  (lookup_session w (Some sessionId) = None ->
   handleGameTimeout E sessionId context w = (Ok tt, w)) /\
  (forall ref s finalStatus (substate : jsval),
     lookup_session w (Some sessionId) = Some (ref, s) ->
     status (gameState_of s) = substate ->
     (context, finalStatus) ∈ expiries ->
     let w' := exec (handleGameTimeout E sessionId context) w in
     heap w' = heap w /\
     if succeeds E (clock w)
     then queries (new_effects w w')
          = [SqlFinal finalStatus (gameState_of s) sessionId] /\
          if succeeds E (S (clock w))
          then rps_sessions w'
               = map (finalize_row finalStatus (gameState_of s) sessionId)
                     (rps_sessions w) /\
               activeHelperGames w' !! sessionId = None
          else rps_sessions w' = rps_sessions w /\
               activeHelperGames w' = activeHelperGames w
     else queries (new_effects w w') = [] /\
          rps_sessions w' = rps_sessions w /\
          activeHelperGames w' = activeHelperGames w).
Proof.
  split.
  - apply handleGameTimeout_absent.
  - intros ref s finalStatus substate Hl _ Hc. cbv zeta. unfold exec.
    destruct (handleGameTimeout_present E _ _ _ _ _ _ Hl Hc) as [text ->].
    cbv zeta. unfold finalized, new_effects.
    destruct (succeeds E (clock w)); [destruct (succeeds E (S (clock w))) |];
      proj; rewrite <- ?app_assoc; cbn [app]; rewrite drop_app_length;
      repeat split; apply lookup_delete_eq.
Qed.

Lemma timeout_rechecks_presence_only_witness :
  let w' := exec (handleGameTimeout reliable 7 "offer") duel in
  heap w' = heap duel /\
  queries (new_effects duel w')
  = [SqlFinal "completed_timeout" (gameState_of duel_session) 7] /\
  rps_sessions w'
  = map (finalize_row "completed_timeout" (gameState_of duel_session) 7)
        (rps_sessions duel) /\
  activeHelperGames w' !! 7%Z = None.
Proof.
  assert (Hc : ("offer", "completed_timeout") ∈ expiries).
  { unfold expiries. rewrite !elem_of_cons. auto. }
  exact (proj2 (timeout_rechecks_presence_only reliable duel 7 "offer")
           0%nat duel_session "completed_timeout" (JStr "pvp_awaiting_choices")
           eq_refl eq_refl Hc).
Defined.

(** C3 as stated fails. Session 7 has left the offer sub-state and is a
    duel awaiting choices. The task of a timer armed for a turn against the
    bot, run in this state, finds the session in memory and finalizes the
    duel as [completed_bot_win]. (In the source such a timer is left
    pending when the handlers of accept-bot and accept-pvp interleave at
    their [await]s: the second overwrites [session.timeoutId].) *)
Lemma expiry_in_another_substate_finalizes :
  (status ∘ gameState_of <$> heap duel) = [JStr "pvp_awaiting_choices"] /\
  activeHelperGames duel !! 7%Z = Some 0%nat /\
  let w' := exec (handleGameTimeout reliable 7 "pvb_player_turn") duel in
  activeHelperGames w' !! 7%Z = None /\
  (db_status <$> rps_sessions duel) = ["in_progress"; "pending_pickup"] /\
  (db_status <$> rps_sessions w') = ["completed_bot_win"; "pending_pickup"].
Proof. vm_compute. repeat split. Qed.

(** *** The status of a session object along handlers *)

Lemma status_step_refl s : status_step s s.
Proof. left; reflexivity. Qed.

Lemma status_step_trans s1 s2 s3 :
  status_step s1 s2 -> status_step s2 s3 -> status_step s1 s3.
Proof.
  unfold status_step. intros [H12 | H12] [H23 | H23]; auto.
  - left; congruence.
  - right; congruence.
Qed.

Lemma heap_step_refl h : heap_step h h.
Proof. intros ref s H. exists s. split; [assumption | apply status_step_refl]. Qed.

Lemma heap_step_trans h1 h2 h3 :
  heap_step h1 h2 -> heap_step h2 h3 -> heap_step h1 h3.
Proof.
  intros H12 H23 ref s H.
  destruct (H12 _ _ H) as (s2 & H2 & Hs2).
  destruct (H23 _ _ H2) as (s3 & H3 & Hs3).
  exists s3. split; [assumption | eapply status_step_trans; eassumption].
Qed.

Lemma heap_step_insert h r x :
  (forall s, h !! r = Some s -> status_step s x) ->
  heap_step h (<[r := x]> h).
Proof.
  intros Hx ref s H. destruct (decide (ref = r)) as [-> | Hne].
  - exists x. split; [| auto].
    apply list_lookup_insert_eq. eapply lookup_lt_Some; eassumption.
  - exists s. split; [| apply status_step_refl].
    rewrite list_lookup_insert_ne by congruence. assumption.
Qed.

Lemma heap_step_app h l : heap_step h (h ++ l)%list.
Proof.
  intros ref s H. exists s. split; [| apply status_step_refl].
  apply lookup_app_l_Some. assumption.
Qed.

Lemma heap_step_insert_fresh h h' r x :
  (length h <= r)%nat -> heap_step h h' -> heap_step h (<[r := x]> h').
Proof.
  intros Hr Hh ref s H. destruct (Hh _ _ H) as (s' & H' & Hs').
  exists s'. split; [| assumption].
  rewrite list_lookup_insert_ne; [assumption |].
  apply lookup_lt_Some in H. lia.
Qed.

(** Writing an object whose status is a sub-state of play. *)
Lemma heap_step_insert_play h r x :
  in_play (status (gameState_of x)) -> heap_step h (<[r := x]> h).
Proof. intros Hx. apply heap_step_insert. intros s _. right. assumption. Qed.

(** Writing the object read at [r], its status as it was. *)
Lemma heap_step_insert_same h r s0 x :
  h !! r = Some s0 ->
  status (gameState_of x) = status (gameState_of s0) ->
  heap_step h (<[r := x]> h).
Proof.
  intros H0 Hx. apply heap_step_insert. intros s Hs. left. congruence.
Qed.

Lemma in_play_pvb : in_play (JStr "pvb_awaiting_player_choice").
Proof. left; reflexivity. Qed.

Lemma in_play_pvp : in_play (JStr "pvp_awaiting_choices").
Proof. right; reflexivity. Qed.

Lemma status_set_choice k v s :
  status (gameState_of (on_game_state (set_choice k v) s)) = status (gameState_of s).
Proof. destruct k; reflexivity. Qed.

Ltac heap_chain :=
  lazymatch goal with
  | |- heap_step ?h ?h => apply heap_step_refl
  | |- heap_step ?h (<[?r := ?x]> ?h') =>
    apply (heap_step_trans h h' _);
    [ heap_chain
    | first
        [ apply heap_step_insert_play; cbn;
          first [apply in_play_pvb | apply in_play_pvp]
        | eapply heap_step_insert_same;
          [eassumption | first [apply status_set_choice | reflexivity]] ] ]
  end.

Lemma on_callback_query_heap_step (E : env) cq w :
  heap_step (heap w) (heap (exec (on_callback_query E cq) w)).
Proof.
  unfold exec, on_callback_query.
  destruct (destructure _) as [[action sidstr] p0].
  mon.
  destruct (lookup_session w (parseInt10 sidstr)) as [[ref0 s0]|] eqn:Hl.
  2:{ ext; apply heap_step_refl. }
  destruct (parseInt10 sidstr) as [sid|] eqn:Hp; [| discriminate].
  apply lookup_session_heap in Hl.
  unfold clear_if_set; cbn [timeoutId on_game_state on_fields set_timeoutId].
  destruct (timeoutId s0); mon;
  repeat match goal with
         | |- context [if ?c then _ else _] =>
           lazymatch c with
           | context [succeeds] => fail
           | _ => destruct c eqn:?
           end
         | |- context [match ?c with Some _ => _ | None => _ end] =>
           destruct c eqn:?
         end;
    unfold runRPSPvB, runRPSPvP; mon; proj; ext;
    unfold finalized;
    repeat match goal with
           | |- context [if ?c then _ else _] => destruct c eqn:?
           end; proj.
  all: heap_chain.
Qed.

Lemma handleGameTimeout_heap (E : env) sessionId context w :
  heap (exec (handleGameTimeout E sessionId context) w) = heap w.
Proof.
  unfold exec, handleGameTimeout. mon.
  destruct (lookup_session w (Some sessionId)) as [[ref s]|]; [| reflexivity].
  repeat match goal with
         | |- context [if ?c then _ else _] =>
           lazymatch c with
           | context [succeeds] => fail
           | _ => destruct c eqn:?
           end
         end;
    ext; unfold finalized;
    repeat match goal with
           | |- context [if ?c then _ else _] => destruct c eqn:?
           end; reflexivity.
Qed.

Lemma fire_heap (E : env) t w : heap (exec (fire E t) w) = heap w.
Proof.
  unfold exec, fire. mon.
  destruct (timers w !! t) as [[[sessionId context]|]|]; try reflexivity.
  cbv beta iota.
  exact (handleGameTimeout_heap E sessionId context
           (set_timers (fun l => <[t := None]> l) w)).
Qed.

Lemma handleNewGameSession_heap_step (E : env) BOT_ID mainBotGameId w :
  heap_step (heap w) (heap (exec (handleNewGameSession E BOT_ID mainBotGameId) w)).
Proof.
  unfold exec, handleNewGameSession, client_query_begin, client_query_claim,
    client_query_commit, client_query_rollback, client_release,
    runUnifiedOffer, runDirectChallenge.
  mon. ext; try apply heap_step_refl.
  all: destruct (List.filter _ _) as [| r rest]; cbn [map]; ext;
    try apply heap_step_refl.
  all: repeat match goal with
              | |- context [if ?c then _ else _] => destruct c eqn:?
              end; proj; ext; try apply heap_step_refl.
  all: repeat (apply heap_step_insert_fresh; [reflexivity |]);
    apply heap_step_app.
Qed.

Lemma handle_heap_step (E : env) BOT_ID ev w :
  heap_step (heap w) (heap (exec (handle E BOT_ID ev) w)).
Proof.
  destruct ev as [mainBotGameId | cq | t]; cbn [handle].
  - apply handleNewGameSession_heap_step.
  - apply on_callback_query_heap_step.
  - rewrite fire_heap. apply heap_step_refl.
Qed.

Lemma run_heap_step (E : env) BOT_ID evs w :
  heap_step (heap w) (heap (run E BOT_ID evs w)).
Proof.
  revert w. induction evs as [| ev rest IH]; intros w; cbn [run].
  - apply heap_step_refl.
  - eapply heap_step_trans; [apply handle_heap_step | apply IH].
Qed.

(** *** Action events on a session that is in memory *)

(** Opens the handler on an event whose parts are named by hypotheses
    on [action_of], [sessionId_of], [param_of] and [clickerId_of]. *)
Ltac open_handler :=
  unfold exec, new_effects, on_callback_query;
  unfold action_of, sessionId_of, param_of, clickerId_of in *;
  destruct (destructure _) as [[?action ?sidstr] ?p0];
  cbn [fst snd] in *; subst; mon;
  repeat match goal with
         | H : parseInt10 _ = Some _ |- _ => rewrite H in *
         | H : lookup_session _ _ = _ |- _ => rewrite H
         end;
  cbv beta iota.

Ltac branch :=
  repeat match goal with
         | H : ?c = _ |- context [if ?c then _ else _] => rewrite H
         | H : _ = js_String _ |- _ => rewrite H in *
         | |- context [String.eqb ?a ?a] => rewrite (String.eqb_refl a)
         end;
  cbn [String.eqb Ascii.eqb Bool.eqb andb negb orb];
  cbv beta iota.

(** C4, as the code has it. Along any sequence of events a session object
    changes its status only into one of the two sub-states of play; so a
    session in play stays in play, and none returns to a sub-state of an
    offer. The sub-state is not what gates an action: in any sub-state,
    when the acknowledgement of the event goes through, accept-bot from the
    initiator puts the session in [pvb_awaiting_player_choice], and
    cancel-offer from the initiator sends the write of
    [completed_cancelled], after which, when the datastore accepts it, the
    row carries that status and the session is gone from memory. When the
    acknowledgement is rejected neither action is applied. *)
Theorem status_changes_only_into_play (E : env) (BOT_ID : string) :
  (forall (evs : list event) (w : world) (ref : nat) (s : session),
     heap w !! ref = Some s ->
     exists s', heap (run E BOT_ID evs w) !! ref = Some s' /\
                (status (gameState_of s') = status (gameState_of s)
                 \/ in_play (status (gameState_of s'))) /\
                (in_play (status (gameState_of s)) ->
                 in_play (status (gameState_of s')))) /\
  (forall (cq : callback_query) (w : world) sid ref s (substate : jsval),
     sessionId_of cq = Some sid ->
     lookup_session w (Some sid) = Some (ref, s) ->
     status (gameState_of s) = substate ->
     clickerId_of cq = js_String (initiator_id (fields s)) ->
     let w' := exec (on_callback_query E cq) w in
     (action_of cq = "cf_helper_accept_bot" ->
      if succeeds E (clock w)
      then exists s', heap w' !! ref = Some s' /\
                      status (gameState_of s') = JStr "pvb_awaiting_player_choice"
      else heap w' = heap w) /\
     (action_of cq = "cf_helper_cancel" ->
      if succeeds E (clock w)
      then queries (new_effects w w')
           = [SqlFinal "completed_cancelled" (gameState_of s) sid] /\
           (succeeds E (S (S (clock w))) = true ->
            (forall r, r ∈ rps_sessions w' -> session_id r = sid ->
                       db_status r = "completed_cancelled") /\
            activeHelperGames w' !! sid = None)
      else queries (new_effects w w') = [] /\
           heap w' = heap w /\
           rps_sessions w' = rps_sessions w /\
           activeHelperGames w' = activeHelperGames w)).
Proof.
  split.
  - intros evs w ref s Hs.
    destruct (run_heap_step E BOT_ID evs w ref s Hs) as (s' & Hs' & Hstep).
    exists s'. split; [assumption |]. split; [exact Hstep |].
    intros Hplay. destruct Hstep as [Heq | Hp]; [rewrite Heq |]; assumption.
  - intros cq w sid ref s substate Hsid Hl _ Hclick. cbv zeta.
    pose proof (lookup_session_heap _ _ _ _ Hl) as Hh.
    pose proof (lookup_lt_Some _ _ _ Hh) as Hlt.
    split; intros Hact; open_handler; branch;
      unfold clear_if_set; destruct (timeoutId s); mon;
      rewrite external_eq; proj;
      destruct (succeeds E (clock w)) eqn:Hans; cbv beta iota; proj.
    1,3: unfold runRPSPvB; mon; ext; proj;
      eexists; (split; [apply list_lookup_insert_eq;
                        rewrite ?length_insert; exact Hlt | reflexivity]).
    1,2: reflexivity.
    all: ext; unfold finalized;
      repeat match goal with
             | |- context [if ?c then _ else _] => destruct c eqn:?
             end; proj;
      rewrite <- ?app_assoc; cbn [app]; rewrite drop_app_length;
      repeat split; try reflexivity; try congruence;
      try apply lookup_delete_eq;
      intros r; apply finalize_row_status.
Qed.

Lemma status_changes_only_into_play_witness :
  exists s',
    heap (exec (on_callback_query reliable (click ann "cf_helper_accept_bot:7")) duel)
      !! 0%nat = Some s' /\
    status (gameState_of s') = JStr "pvb_awaiting_player_choice".
Proof.
  exact (proj1 (proj2 (status_changes_only_into_play reliable "4242")
                  (click ann "cf_helper_accept_bot:7") duel 7%Z 0%nat
                  duel_session (JStr "pvp_awaiting_choices")
                  eq_refl eq_refl eq_refl eq_refl) eq_refl).
Defined.

(** C4 as stated fails. Session 7 has left the offer sub-state: Bob accepted
    and the duel is awaiting choices. Accept-bot from Ann, an action of the
    offer sub-state, is applied all the same and takes the session from the
    duel to a game against the bot; cancel-offer from Ann is applied too and
    finalizes the session as cancelled. *)
Lemma offer_actions_apply_after_acceptance :
  (status ∘ gameState_of <$> heap offered) = [JStr "awaiting_offer_response"] /\
  (status ∘ gameState_of <$> heap duel) = [JStr "pvp_awaiting_choices"] /\
  (status ∘ gameState_of <$>
     heap (exec (on_callback_query reliable (click ann "cf_helper_accept_bot:7")) duel))
  = [JStr "pvb_awaiting_player_choice"] /\
  (db_status <$>
     rps_sessions (exec (on_callback_query reliable (click ann "cf_helper_cancel:7")) duel))
  = ["completed_cancelled"; "pending_pickup"].
Proof. vm_compute. repeat split. Qed.

Lemma timers_cleared_stays (l : list (option (Z * string))) t x :
  (t < length l)%nat -> (<[t := None]> l ++ [x])%list !! t = Some None.
Proof.
  intros Ht. rewrite lookup_app_l by (rewrite length_insert; exact Ht).
  apply list_lookup_insert_eq. exact Ht.
Qed.

(** Whatever the action and whoever the actor, an event that finds its
    session in memory leaves the timer of that session cleared. *)
Lemma every_event_disarms (E : env) (cq : callback_query) (w : world) sid ref s t :
  sessionId_of cq = Some sid ->
  lookup_session w (Some sid) = Some (ref, s) ->
  timeoutId s = Some t ->
  (t < length (timers w))%nat ->
  timers (exec (on_callback_query E cq) w) !! t = Some None.
Proof.
  intros Hsid Hl Ht Hlt.
  unfold exec, on_callback_query. unfold sessionId_of in Hsid.
  destruct (destructure _) as [[action sidstr] p0]. cbn [fst snd] in Hsid.
  mon. rewrite Hsid, Hl. cbv beta iota.
  unfold clear_if_set; cbn [timeoutId on_game_state on_fields set_timeoutId].
  rewrite Ht. mon.
  repeat match goal with
         | |- context [if ?c then _ else _] =>
           lazymatch c with
           | context [succeeds] => fail
           | _ => destruct c eqn:?
           end
         | |- context [match ?c with Some _ => _ | None => _ end] =>
           destruct c eqn:?
         end;
    unfold runRPSPvB, runRPSPvP; mon; proj; ext;
    unfold finalized;
    repeat match goal with
           | |- context [if ?c then _ else _] => destruct c eqn:?
           end; proj.
  all: rewrite ?list_insert_insert_eq.
  all: first [ apply list_lookup_insert_eq; exact Hlt
             | apply timers_cleared_stays; exact Hlt ].
Qed.

(** C5 at the failing input. Ann plays the bot and the timer of her turn is
    pending. Eve, who is not the initiator, sends a choice: the event is
    rejected, the session object, the table of sessions, the rows and the
    trace are as before, and yet the timer has been cleared; its task never
    runs. *)
Theorem rejected_event_disarms_the_timer :
  let cq := click eve "rps_helper_pvb_choice:7:rock" in
  let w' := exec (on_callback_query reliable cq) versus_bot in
  timers versus_bot = [None; Some (7%Z, "pvb_player_turn")] /\
  fst (on_callback_query reliable cq versus_bot) = Ok tt /\
  heap w' = heap versus_bot /\
  activeHelperGames w' = activeHelperGames versus_bot /\
  rps_sessions w' = rps_sessions versus_bot /\
  new_effects versus_bot w' = [] /\
  timers w' = [None; None] /\
  exec (fire reliable 1) w' = w'.
Proof. vm_compute. repeat split. Qed.

Lemma on_callback_query_absent (E : env) cq w :
  lookup_session w (sessionId_of cq) = None ->
  on_callback_query E cq w =
  external E (AnswerCallbackQuery (cq_id cq) (Some MsgNoLongerActive) true) w.
Proof.
  intros H. unfold on_callback_query.
  unfold sessionId_of in H.
  destruct (destructure _) as [[action sidstr] p0]. cbn [fst snd] in H.
  mon. rewrite H. reflexivity.
Qed.

Lemma lookup_session_evicted w k :
  activeHelperGames w !! k = None -> lookup_session w (Some k) = None.
Proof. unfold lookup_session. intros ->. reflexivity. Qed.


(** In the submit branch: the field the actor's submission concerns, by
    the hypothesis on [playerKey_of], and the test of that field, by the
    hypothesis on the actor's recorded choice. *)
Ltac submit_branch Hkey Hmine :=
  unfold playerKey_of in Hkey;
  cbn [String.eqb Ascii.eqb Bool.eqb andb];
  destruct (String.eqb _ (js_String (initiator_id _)));
    [| destruct (String.eqb _ (js_String (opponent_id _)))];
  try discriminate; injection Hkey as <-;
  cbn [get_choice other_key] in *; rewrite Hmine; cbn [negb];
  cbn [gameState_of on_game_state on_fields fields game_state_json
       set_game_state_json set_choice set_p1_choice set_p2_choice
       p1_choice p2_choice timeoutId] in *;
  unfold gameState_of in *.

(** The submission that completes the pair of choices, when the transport
    and the datastore answer. *)
Lemma completing_submission
    (E : env) (cq : callback_query) (w : world) (sid : Z) (ref : nat)
    (s : session) (k : player_key) (message_id : jsval) :
  action_of cq = "rps_helper_pvp_submit" ->
  sessionId_of cq = Some sid ->
  lookup_session w (Some sid) = Some (ref, s) ->
  playerKey_of (clickerId_of cq) s = Some k ->
  truthy (param_of cq) = true ->
  truthy (get_choice k (gameState_of s)) = false ->
  truthy (get_choice (other_key k) (gameState_of s)) = true ->
  cq_message cq = Some message_id ->
  succeeds E (clock w) = true -> succeeds E (S (clock w)) = true ->
  succeeds E (S (S (clock w))) = true ->
  succeeds E (S (S (S (clock w)))) = true ->
  let g1 := gameState_of (on_game_state (set_choice k (param_of cq)) s) in
  let w' := exec (on_callback_query E cq) w in
  fst (on_callback_query E cq w) = Ok tt /\
  queries (new_effects w w') = [SqlFinal (duel_status g1) g1 sid] /\
  rps_sessions w' = map (finalize_row (duel_status g1) g1 sid) (rps_sessions w) /\
  activeHelperGames w' !! sid = None.
Proof.
  intros Hact Hsid Hl Hkey Hchoice Hmine Hother Hm H0 H1 H2 H3. cbv zeta.
  open_handler. submit_branch Hkey Hmine.
  all: rewrite ?Hother, ?Hchoice; cbn [andb]; rewrite Hm.
  all: unfold clear_if_set; destruct (timeoutId s); mon.
  all: repeat (rewrite external_eq; proj; rewrite ?H0, ?H1, ?H2, ?H3;
               cbv beta iota).
  all: rewrite finalizeAndRecordOutcome_eq; proj; rewrite ?H3;
    unfold finalized; proj.
  all: rewrite <- ?app_assoc; cbn [app]; rewrite drop_app_length.
  all: repeat split; try reflexivity; apply lookup_delete_eq.
Qed.







(** A handler of a submission that runs alone is its two steps in a row. *)
Lemma on_callback_query_submit_steps (E : env) (cq : callback_query) (w : world) :
  action_of cq = "rps_helper_pvp_submit" ->
  on_callback_query E cq w = submit_in_two_steps E cq w.
Proof.
  intros Hact.
  unfold submit_in_two_steps, submit_until_verdict, submit_verdict, on_callback_query.
  unfold action_of in Hact.
  destruct (destructure _) as [[action sidstr] p0]. cbn [fst snd] in Hact. subst action.
  mon.
  destruct (lookup_session w (parseInt10 sidstr)) as [[ref s] |] eqn:Hl.
  2:{ rewrite external_eq. destruct (succeeds E (clock w)); reflexivity. }
  destruct (parseInt10 sidstr) as [sid |]; [| discriminate Hl].
  pose proof (lookup_lt_Some _ _ _ (lookup_session_heap _ _ _ _ Hl)) as Hlt.
  cbn [String.eqb Ascii.eqb Bool.eqb andb].
  unfold clear_if_set; cbn [timeoutId on_game_state on_fields set_timeoutId].
  destruct (timeoutId s) eqn:Ht; mon;
    destruct (String.eqb _ (js_String (initiator_id _)));
    [| destruct (String.eqb _ (js_String (opponent_id _))) | |
       destruct (String.eqb _ (js_String (opponent_id _)))];
    cbv beta iota;
    repeat match goal with
           | |- context [negb (truthy ?c)] => destruct (truthy c) eqn:?; cbn [negb]
           end;
    try destruct (cq_message cq) as [mid |];
    repeat (rewrite external_eq; proj;
            match goal with
            | |- context [succeeds E ?n] => destruct (succeeds E n) eqn:?
            end; cbv beta iota; proj);
    try reflexivity.
  all: rewrite ?list_lookup_insert_eq by exact Hlt; cbv beta iota.
  all: cbn [timeoutId on_game_state on_fields set_timeoutId]; rewrite ?Ht.
  all: reflexivity.
Qed.


(** *** Timeouts, through the event loop *)




(** *** The claim *)

Lemma insert_last {A} (h : list A) (x y : A) :
  <[length h := x]> (h ++ [y])%list = (h ++ [x])%list.
Proof.
  rewrite insert_app_r_alt by reflexivity. rewrite Nat.sub_diag. reflexivity.
Qed.



(** *** The error result of the resolver and its callers *)


Lemma random_choice_in_range (E : env) (n : nat) :
  exists c, RPS_CHOICES_values !! (random_index E n mod length RPS_CHOICES_values)%nat
            = Some c.
Proof.
  apply lookup_lt_is_Some_2. apply Nat.mod_upper_bound. discriminate.
Qed.






(** ** Texts and event data *)

Lemma split_colon_nonempty s : split_colon s <> [].
Proof.
  induction s as [| c r IH]; cbn; [discriminate |].
  destruct (Ascii.eqb c ":"); [discriminate |].
  destruct (split_colon r); [contradiction | discriminate].
Qed.

Lemma split_colon_free s : colon_free s = true -> split_colon s = [s].
Proof.
  induction s as [| c r IH]; cbn; [reflexivity |].
  destruct (Ascii.eqb c ":"); cbn; [discriminate |].
  intros H. rewrite (IH H). reflexivity.
Qed.

Lemma split_colon_app a b :
  colon_free a = true -> split_colon (a ++ ":" ++ b) = a :: split_colon b.
Proof.
  change (":" ++ b) with (String ":" b).
  induction a as [| c r IH]; [reflexivity |].
  change (String c r +:+ String ":" b) with (String c (r +:+ String ":" b)).
  cbn [colon_free split_colon].
  destruct (Ascii.eqb c ":"); cbn [negb andb]; [discriminate |].
  intros H. rewrite (IH H). reflexivity.
Qed.

Lemma digit_value_pretty_N_char d :
  (d < 10)%N -> digit_value (pretty_N_char d) = Some (Z.of_N d).
Proof.
  intros H.
  assert (d = 0 \/ d = 1 \/ d = 2 \/ d = 3 \/ d = 4 \/ d = 5 \/ d = 6 \/ d = 7
          \/ d = 8 \/ d = 9)%N as Hd by lia.
  repeat destruct Hd as [-> | Hd]; try subst d; reflexivity.
Qed.

(** The digits stdpp's [pretty] writes are read back by [leading_digits]. *)
Lemma leading_digits_pretty_N_go x s :
  (0 < x)%N ->
  leading_digits (pretty_N_go x s) None = leading_digits s (Some (Z.of_N x)).
Proof.
  revert s. induction (N.lt_wf_0 x) as [x _ IH]; intros s Hx.
  rewrite pretty_N_go_step by exact Hx.
  assert (Hd : (x `mod` 10 < 10)%N) by (apply N.mod_lt; discriminate).
  assert (Hx10 : Z.of_N x = (10 * Z.of_N (x `div` 10) + Z.of_N (x `mod` 10))%Z).
  { rewrite (N.div_mod x 10) at 1 by discriminate. lia. }
  destruct (N.eq_dec (x `div` 10)%N 0%N) as [Hq | Hq].
  - rewrite Hq, pretty_N_go_0. cbn [leading_digits].
    rewrite (digit_value_pretty_N_char _ Hd). cbn [default].
    rewrite Hx10, Hq. reflexivity.
  - rewrite IH; [| apply N.div_lt; [exact Hx | reflexivity]
                  | apply N.neq_0_lt_0; exact Hq].
    cbn [leading_digits]. rewrite (digit_value_pretty_N_char _ Hd).
    cbn [default]. rewrite Hx10. reflexivity.
Qed.

Lemma pretty_N_go_head x s :
  (0 < x)%N ->
  exists d t, (d < 10)%N /\ pretty_N_go x s = String (pretty_N_char d) t.
Proof.
  revert s. induction (N.lt_wf_0 x) as [x _ IH]; intros s Hx.
  rewrite pretty_N_go_step by exact Hx.
  destruct (N.eq_dec (x `div` 10)%N 0%N) as [Hq | Hq].
  - rewrite Hq, pretty_N_go_0. eexists _, _. split; [| reflexivity].
    apply N.mod_lt. discriminate.
  - apply IH; [apply N.div_lt; [exact Hx | reflexivity]
               | apply N.neq_0_lt_0; exact Hq].
Qed.

(** A text that starts with an ASCII character other than white space
    has no white space to skip. *)
Lemma skip_whitespace_head c r :
  is_whitespace c = false -> (nat_of_ascii c <? 128)%nat = true ->
  skip_whitespace (String c r) = String c r.
Proof.
  intros Hw Hc. cbn [skip_whitespace]. rewrite Hw.
  apply Nat.ltb_lt in Hc.
  assert (H : forall k, (128 <= k)%nat -> (nat_of_ascii c =? k)%nat = false)
    by (intros k Hk; apply Nat.eqb_neq; lia).
  destruct r as [| d r1]; [reflexivity |].
  unfold is_whitespace2. rewrite H by lia. cbn [andb].
  destruct r1 as [| e r2]; [reflexivity |].
  unfold is_whitespace3. cbv zeta. rewrite !H by lia. reflexivity.
Qed.

Lemma parseInt10_digits d t :
  (d < 10)%N ->
  parseInt10 (JStr (String (pretty_N_char d) t))
  = leading_digits (String (pretty_N_char d) t) None.
Proof.
  intros H.
  assert (d = 0 \/ d = 1 \/ d = 2 \/ d = 3 \/ d = 4 \/ d = 5 \/ d = 6 \/ d = 7
          \/ d = 8 \/ d = 9)%N as Hd by lia.
  repeat destruct Hd as [-> | Hd]; try subst d;
    unfold parseInt10; cbn [js_String];
    rewrite skip_whitespace_head by reflexivity; reflexivity.
Qed.

Lemma parseInt10_pretty_pos (p : positive) :
  parseInt10 (JStr (pretty (N.pos p))) = Some (Z.pos p).
Proof.
  unfold pretty, pretty_N. destruct (decide (N.pos p = 0%N)); [discriminate |].
  destruct (pretty_N_go_head (N.pos p) "") as (d & t & Hd & Ht); [reflexivity |].
  rewrite Ht, (parseInt10_digits d t Hd), <- Ht.
  rewrite leading_digits_pretty_N_go by reflexivity. reflexivity.
Qed.

Lemma parseInt10_String (z : Z) : parseInt10 (JStr (js_String (JNum z))) = Some z.
Proof.
  cbn [js_String]. destruct z as [| p | p].
  - reflexivity.
  - exact (parseInt10_pretty_pos p).
  - change (pretty (Z.neg p)) with ("-" +:+ pretty (N.pos p)).
    unfold pretty, pretty_N. destruct (decide (N.pos p = 0%N)); [discriminate |].
    unfold parseInt10. cbn [js_String].
    change ("-" +:+ pretty_N_go (N.pos p) "")
      with (String "-" (pretty_N_go (N.pos p) "")).
    rewrite skip_whitespace_head by reflexivity.
    cbv beta iota. rewrite leading_digits_pretty_N_go by reflexivity. reflexivity.
Qed.

Lemma colon_free_pretty_N_go x s :
  colon_free s = true -> colon_free (pretty_N_go x s) = true.
Proof.
  revert s. induction (N.lt_wf_0 x) as [x _ IH]; intros s Hs.
  destruct (N.eq_dec x 0%N) as [-> | Hx]; [exact Hs |].
  assert (0 < x)%N as Hpos by (apply N.neq_0_lt_0; exact Hx).
  rewrite pretty_N_go_step by exact Hpos.
  apply IH; [apply N.div_lt; [exact Hpos | reflexivity] |].
  cbn [colon_free]. rewrite Hs, andb_true_r.
  unfold pretty_N_char. repeat case_match; reflexivity.
Qed.

Lemma colon_free_String (z : Z) : colon_free (js_String (JNum z)) = true.
Proof.
  cbn [js_String]. destruct z as [| p | p]; [reflexivity | |].
  - unfold pretty, pretty_Z, pretty, pretty_positive, pretty, pretty_N.
    destruct (decide (N.pos p = 0%N)); [reflexivity |].
    apply colon_free_pretty_N_go. reflexivity.
  - change (pretty (Z.neg p)) with (String "-" (pretty (N.pos p))).
    cbn [colon_free]. unfold pretty, pretty_N.
    destruct (decide (N.pos p = 0%N)); [reflexivity |].
    rewrite colon_free_pretty_N_go; reflexivity.
Qed.

(** X3. The data a choice button carries, built from an action, a session
    id and a choice, is read back by the handler as that action, that
    session id and that choice, for every session id that is a safe
    integer, as long as the action and the choice hold no colon. *)
Theorem callback_data_decodes
    (cq : callback_query) (action : string) (sessionId : Z) (choice : string) :
  safe_integer sessionId ->
  colon_free action = true ->
  colon_free choice = true ->
  cq_data cq = callback_data action sessionId choice ->
  action_of cq = action /\
  sessionId_of cq = Some sessionId /\
  param_of cq = JStr choice.
Proof.
  intros _ Ha Hc Hdata. unfold action_of, sessionId_of, param_of.
  rewrite Hdata. unfold callback_data.
  rewrite (split_colon_app _ _ Ha).
  rewrite (split_colon_app _ _ (colon_free_String sessionId)).
  rewrite (split_colon_free _ Hc). cbn [destructure fst snd].
  rewrite parseInt10_String. repeat split.
Qed.

Lemma callback_data_decodes_witness :
  let cq := click ann (callback_data "rps_helper_pvp_submit" (-42) "paper") in
  action_of cq = "rps_helper_pvp_submit" /\
  sessionId_of cq = Some (-42)%Z /\
  param_of cq = JStr "paper".
Proof.
  refine (callback_data_decodes
            (click ann (callback_data "rps_helper_pvp_submit" (-42) "paper"))
            "rps_helper_pvp_submit" (-42) "paper" _ eq_refl eq_refl eq_refl).
  unfold safe_integer. cbn. lia.
Defined.

(** *** [escapeHTML] *)

Lemma string_forall_app p s t :
  string_forall p (s ++ t) = string_forall p s && string_forall p t.
Proof.
  induction s as [| c r IH]; [reflexivity |].
  change (String c r +:+ t) with (String c (r +:+ t)).
  cbn [string_forall]. rewrite IH, andb_assoc. reflexivity.
Qed.

Lemma escape_char_no_markup c :
  string_forall (fun x => negb (markup_char x)) (escape_char c) = true.
Proof.
  unfold escape_char.
  destruct (Ascii.eqb c "&") eqn:H1; [reflexivity |].
  destruct (Ascii.eqb c "<") eqn:H2; [reflexivity |].
  destruct (Ascii.eqb c ">") eqn:H3; [reflexivity |].
  destruct (Ascii.eqb c "034") eqn:H4; [reflexivity |].
  destruct (Ascii.eqb c "'") eqn:H5; [reflexivity |].
  cbn [string_forall]. unfold markup_char. rewrite H2, H3, H4, H5. reflexivity.
Qed.

(** X1. The text [escapeHTML] returns holds none of the characters
    [<], [>], the double quote and the single quote, whatever it is given;
    for [null] and [undefined] it is the empty text. *)
Theorem escapeHTML_no_markup (text : jsval) :
  string_forall (fun c => negb (markup_char c)) (escapeHTML text) = true /\
  escapeHTML JNull = "" /\ escapeHTML JUndefined = "".
Proof.
  split; [| split; reflexivity].
  assert (H : forall s, string_forall (fun c => negb (markup_char c))
                                      (escape_string s) = true).
  { induction s as [| c r IH]; [reflexivity |].
    cbn [escape_string]. rewrite string_forall_app, escape_char_no_markup, IH.
    reflexivity. }
  destruct text; cbn [escapeHTML]; first [reflexivity | apply H].
Qed.

Lemma append_String c r t : String c r ++ t = String c (r ++ t).
Proof. reflexivity. Qed.

Lemma append_empty t : "" ++ t = t.
Proof. reflexivity. Qed.

Lemma unescape_escape_string s : unescape (escape_string s) = s.
Proof.
  induction s as [| c r IH]; [reflexivity |].
  cbn [escape_string].
  destruct c as [[] [] [] [] [] [] [] []];
    match goal with
    | |- unescape (?e ++ _) = _ =>
      let e' := eval vm_compute in e in change e with e'
    end;
    rewrite ?append_String, append_empty;
    cbn [unescape]; rewrite IH; reflexivity.
Qed.

(** X2. [escapeHTML] loses nothing: two texts with the same escaped form
    are the same text. *)
Theorem escapeHTML_injective (s t : string) :
  escapeHTML (JStr s) = escapeHTML (JStr t) -> s = t.
Proof.
  cbn [escapeHTML js_String]. intros H.
  rewrite <- (unescape_escape_string s), <- (unescape_escape_string t), H.
  reflexivity.
Qed.

Lemma escapeHTML_injective_witness :
  escapeHTML (JStr "a<b") = escapeHTML (JStr "a<b") /\ "a<b" = "a<b".
Proof.
  split; [reflexivity |].
  exact (escapeHTML_injective "a<b" "a<b" eq_refl).
Defined.

(** X5. The display reference of a player is never an empty or otherwise
    falsy value, whatever the user object holds and also when there is
    none. *)
Theorem getPlayerDisplayReference_truthy (userObject : option user) :
  truthy (getPlayerDisplayReference userObject) = true.
Proof.
  destruct userObject as [u |]; [| reflexivity].
  unfold getPlayerDisplayReference.
  destruct (truthy (username u)) eqn:Hu; [reflexivity |].
  destruct (truthy (first_name u)) eqn:Hf; [exact Hf | reflexivity].
Qed.

(** X6. The sentence that describes a game does not depend on the seat of
    the winner: with the two choices and the two names exchanged the
    resolver returns the same description. *)
Theorem description_either_seat (a b n1 n2 : jsval) :
  n1 <> JUndefined -> n2 <> JUndefined ->
  description (determineRPSOutcome a b n1 n2) =
  description (determineRPSOutcome b a n2 n1).
Proof.
  intros H1 H2. unfold determineRPSOutcome.
  replace (default_param n1 "Player 1") with n1 by (destruct n1; solve [reflexivity | congruence]).
  replace (default_param n2 "Player 2") with n2 by (destruct n2; solve [reflexivity | congruence]).
  replace (default_param n1 "Player 2") with n1 by (destruct n1; solve [reflexivity | congruence]).
  replace (default_param n2 "Player 1") with n2 by (destruct n2; solve [reflexivity | congruence]).
  remember (toLowerCase (js_String a)) as p eqn:Hp.
  remember (toLowerCase (js_String b)) as q eqn:Hq.
  clear Hp Hq.
  destruct (includes RPS_CHOICES_values p) eqn:Ip;
    destruct (includes RPS_CHOICES_values q) eqn:Iq; try reflexivity.
  apply includes_choices in Ip, Iq.
  destruct Ip as [-> | [-> | ->]]; destruct Iq as [-> | [-> | ->]]; reflexivity.
Qed.

Lemma description_either_seat_witness :
  description (determineRPSOutcome (JStr "rock") (JStr "PAPER") (JStr "Ann") (JStr "Bob")) =
  description (determineRPSOutcome (JStr "PAPER") (JStr "rock") (JStr "Bob") (JStr "Ann")).
Proof.
  apply (description_either_seat (JStr "rock") (JStr "PAPER") (JStr "Ann") (JStr "Bob"));
    discriminate.
Defined.

(** ** Events and their actors *)

(** *** Events that find no session *)

Lemma safe_keys_two_sessions : safe_keys two_sessions.
Proof.
  unfold safe_keys. apply map_Forall_to_list.
  assert (H : map_to_list (activeHelperGames two_sessions) = [(7%Z, 0%nat); (8%Z, 1%nat)])
    by (vm_compute; reflexivity).
  rewrite H. repeat constructor; unfold safe_integer; cbn; lia.
Qed.

(** X4. With the keys of the session table safe integers, an action event
    whose data holds no session id, or the id of a session that is not in
    memory, is answered with the notice that the game is no longer active
    and does nothing else: objects, session table, rows and timers are as
    before. White space before the id, as [parseInt] skips it, does not make
    an id unreadable. *)
Theorem event_without_session (E : env) (cq : callback_query) (w : world) :
  safe_keys w ->
  sessionId_of cq = None
  \/ (exists k, sessionId_of cq = Some k /\ activeHelperGames w !! k = None) ->
  let w' := exec (on_callback_query E cq) w in
  heap w' = heap w /\ activeHelperGames w' = activeHelperGames w /\
  rps_sessions w' = rps_sessions w /\ timers w' = timers w /\
  new_effects w w' = [AnswerCallbackQuery (cq_id cq) (Some MsgNoLongerActive) true].
Proof.
  intros _ H. cbv zeta.
  assert (Hl : lookup_session w (sessionId_of cq) = None).
  { destruct H as [-> | (k & -> & Hk)]; [reflexivity |].
    apply lookup_session_evicted. exact Hk. }
  unfold exec, new_effects. rewrite (on_callback_query_absent E cq w Hl).
  rewrite external_eq. proj. repeat split. apply drop_app_length.
Qed.

Lemma event_without_session_witness :
  (sessionId_of (click ann "cf_helper_cancel: 7") = Some 7%Z /\
   sessionId_of (click ann "cf_helper_cancel:x7") = None) /\
  let cq := click ann "cf_helper_cancel:x7" in
  let w' := exec (on_callback_query reliable cq) two_sessions in
  heap w' = heap two_sessions /\
  activeHelperGames w' = activeHelperGames two_sessions /\
  rps_sessions w' = rps_sessions two_sessions /\ timers w' = timers two_sessions /\
  new_effects two_sessions w' = [AnswerCallbackQuery "q" (Some MsgNoLongerActive) true].
Proof.
  split; [split; reflexivity |].
  exact (event_without_session reliable (click ann "cf_helper_cancel:x7") two_sessions
           safe_keys_two_sessions (or_introl eq_refl)).
Defined.

(** *** Who may do what *)

(** An event that passes none of the tests of the handler. *)
Lemma rejected_event (E : env) (cq : callback_query) (w : world) sid ref s :
  sessionId_of cq = Some sid ->
  lookup_session w (Some sid) = Some (ref, s) ->
  let a := action_of cq in
  let is_initiator := String.eqb (clickerId_of cq) (js_String (initiator_id (fields s))) in
  let is_opponent := String.eqb (clickerId_of cq) (js_String (opponent_id (fields s))) in
  (String.eqb a "cf_helper_cancel" || String.eqb a "cf_helper_accept_bot"
   || String.eqb a "rps_helper_pvb_choice") && is_initiator = false ->
  String.eqb a "cf_helper_accept_pvp" && negb is_initiator = false ->
  (String.eqb a "cf_helper_accept_direct" || String.eqb a "cf_helper_decline_direct")
  && is_opponent = false ->
  String.eqb a "rps_helper_pvp_submit" = false ->
  let w' := exec (on_callback_query E cq) w in
  fst (on_callback_query E cq w) = Ok tt /\
  heap w' = heap w /\ activeHelperGames w' = activeHelperGames w /\
  rps_sessions w' = rps_sessions w /\ new_effects w w' = [].
Proof.
  intros Hsid Hl. cbv zeta. intros H1 H2 H3 H4.
  unfold exec, new_effects, on_callback_query.
  unfold action_of, sessionId_of, clickerId_of in *.
  destruct (destructure _) as [[action sidstr] p0]. cbn [fst snd] in *.
  mon. rewrite Hsid, Hl. cbv beta iota.
  rewrite H4.
  destruct (String.eqb action "cf_helper_cancel");
    destruct (String.eqb action "cf_helper_accept_bot");
    destruct (String.eqb action "rps_helper_pvb_choice");
    destruct (String.eqb action "cf_helper_accept_pvp");
    destruct (String.eqb action "cf_helper_accept_direct");
    destruct (String.eqb action "cf_helper_decline_direct");
    destruct (String.eqb _ (js_String (initiator_id _)));
    destruct (String.eqb _ (js_String (opponent_id _)));
    try discriminate; cbn [andb negb orb];
    unfold clear_if_set; destruct (timeoutId s); mon; proj;
    repeat split; apply drop_all.
Qed.

(** X10. The parts are enforced on every action of an offer or a challenge
    and on a choice against the bot: cancel, accept-bot and a choice
    against the bot from anyone but the initiator, accept-pvp from the
    initiator, accept-direct and decline-direct from anyone but the
    designated opponent, and an action the worker does not know, all leave
    the session objects, the session table and the rows as they were and
    send nothing, not even an answer to the event. *)
Theorem unauthorised_event_changes_nothing
    (E : env) (cq : callback_query) (w : world) sid ref s :
  sessionId_of cq = Some sid ->
  lookup_session w (Some sid) = Some (ref, s) ->
  let a := action_of cq in
  let by_initiator := clickerId_of cq = js_String (initiator_id (fields s)) in
  let by_opponent := clickerId_of cq = js_String (opponent_id (fields s)) in
  ((a = "cf_helper_cancel" \/ a = "cf_helper_accept_bot"
    \/ a = "rps_helper_pvb_choice") /\ ~ by_initiator)
  \/ (a = "cf_helper_accept_pvp" /\ by_initiator)
  \/ ((a = "cf_helper_accept_direct" \/ a = "cf_helper_decline_direct")
      /\ ~ by_opponent)
  \/ a ∉ known_actions ->
  let w' := exec (on_callback_query E cq) w in
  fst (on_callback_query E cq w) = Ok tt /\
  heap w' = heap w /\ activeHelperGames w' = activeHelperGames w /\
  rps_sessions w' = rps_sessions w /\ new_effects w w' = [].
Proof.
  intros Hsid Hl. cbv zeta. intros H.
  apply (rejected_event E cq w sid ref s Hsid Hl).
  all: destruct H as [[Ha Hn] | [[Ha Hi] | [[Ha Hn] | Ha]]].
  all: try (apply String.eqb_neq in Hn; rewrite Hn).
  all: try (apply String.eqb_eq in Hi; rewrite Hi).
  all: rewrite ?andb_false_r; try reflexivity.
  all: try (destruct Ha as [-> | [-> | ->]]; reflexivity).
  all: try (destruct Ha as [-> | ->]; reflexivity).
  all: try (rewrite Ha; reflexivity).
  all: unfold known_actions in Ha; rewrite !not_elem_of_cons in Ha.
  all: destruct Ha as (A1 & A2 & A3 & A4 & A5 & A6 & A7 & _).
  all: apply String.eqb_neq in A1, A2, A3, A4, A5, A6, A7.
  all: rewrite ?A1, ?A2, ?A3, ?A4, ?A5, ?A6, ?A7; reflexivity.
Qed.

Lemma unauthorised_event_changes_nothing_witness :
  let cq := click eve "cf_helper_cancel:7" in
  let w' := exec (on_callback_query reliable cq) offered in
  fst (on_callback_query reliable cq offered) = Ok tt /\
  heap w' = heap offered /\ activeHelperGames w' = activeHelperGames offered /\
  rps_sessions w' = rps_sessions offered /\ new_effects offered w' = [].
Proof.
  refine (unauthorised_event_changes_nothing reliable (click eve "cf_helper_cancel:7")
            offered 7 0%nat (entered "4242" pending_row "awaiting_offer_response" 0)
            eq_refl eq_refl _).
  left. split; [left; reflexivity | discriminate].
Defined.

Lemma String_number_not_null (z : Z) :
  js_String (JNum z) <> "null" /\ js_String (JNum z) <> "undefined".
Proof.
  split; intros H; pose proof (parseInt10_String z) as P; rewrite H in P;
    discriminate P.
Qed.

(** X11. While no opponent is designated, nobody can accept or decline a
    direct challenge: the text of [null] or [undefined], with which the
    handler compares the actor, is the decimal numeral of no user id. *)
Theorem open_offer_has_no_direct_actions
    (E : env) (cq : callback_query) (w : world) sid ref s :
  sessionId_of cq = Some sid ->
  lookup_session w (Some sid) = Some (ref, s) ->
  opponent_id (fields s) = JNull \/ opponent_id (fields s) = JUndefined ->
  action_of cq = "cf_helper_accept_direct"
  \/ action_of cq = "cf_helper_decline_direct" ->
  let w' := exec (on_callback_query E cq) w in
  fst (on_callback_query E cq w) = Ok tt /\
  heap w' = heap w /\ activeHelperGames w' = activeHelperGames w /\
  rps_sessions w' = rps_sessions w /\ new_effects w w' = [].
Proof.
  intros Hsid Hl Hopp Ha. cbv zeta.
  assert (Hn : String.eqb (clickerId_of cq) (js_String (opponent_id (fields s))) = false).
  { apply String.eqb_neq. unfold clickerId_of.
    destruct (String_number_not_null (user_id (cq_from cq))) as [N1 N2].
    destruct Hopp as [-> | ->]; assumption. }
  apply (rejected_event E cq w sid ref s Hsid Hl); rewrite ?Hn, ?andb_false_r;
    try reflexivity; destruct Ha as [-> | ->]; reflexivity.
Qed.

Lemma open_offer_has_no_direct_actions_witness :
  let cq := click bob "cf_helper_accept_direct:7" in
  let w' := exec (on_callback_query reliable cq) offered in
  fst (on_callback_query reliable cq offered) = Ok tt /\
  heap w' = heap offered /\ activeHelperGames w' = activeHelperGames offered /\
  rps_sessions w' = rps_sessions offered /\ new_effects offered w' = [].
Proof.
  exact (open_offer_has_no_direct_actions reliable (click bob "cf_helper_accept_direct:7")
           offered 7 0%nat (entered "4242" pending_row "awaiting_offer_response" 0)
           eq_refl eq_refl (or_introl eq_refl) (or_introl eq_refl)).
Defined.

(** *** Entering play *)

(** X8. Both functions that start play put the session in its sub-state of
    play and file it in the session table before they edit the message; the
    timer of the turn is armed exactly when that edit went through. When
    the edit is rejected the function throws with the session in play and
    no timer armed for it. The two private messages of a duel change
    nothing of this, sent or not. *)
Theorem play_starts_with_a_timer_iff_the_edit_succeeds
    (E : env) (ref : nat) (s : session) (w : world) :
  (ref < length (heap w))%nat ->
  forall (run : nat -> session -> M unit) (substate context : string),
    (run = runRPSPvB E /\ substate = "pvb_awaiting_player_choice"
     /\ context = "pvb_player_turn")
    \/ (run = runRPSPvP E /\ substate = "pvp_awaiting_choices"
        /\ context = "pvp_choices") ->
    let w' := exec (run ref s) w in
    activeHelperGames w' !! session_id (fields s) = Some ref /\
    exists s',
      heap w' !! ref = Some s' /\
      status (gameState_of s') = JStr substate /\
      if succeeds E (clock w)
      then fst (run ref s w) = Ok tt /\
           timers w' = (timers w ++ [Some (session_id (fields s), context)])%list /\
           timeoutId s' = Some (length (timers w))
      else fst (run ref s w) = Throw "rejected" /\
           timers w' = timers w /\ timeoutId s' = timeoutId s.
Proof.
  intros Href run substate context H. cbv zeta.
  destruct H as [(-> & -> & ->) | (-> & -> & ->)];
    unfold exec, runRPSPvB, runRPSPvP; mon; proj;
    cbn [fields on_game_state on_fields session_id set_game_state_json
         set_db_status];
    rewrite external_eq; proj; destruct (succeeds E (clock w)) eqn:H0;
    cbv beta iota; proj; ext;
    (split; [apply lookup_insert_eq |]);
    eexists;
    (split; [apply list_lookup_insert_eq; rewrite ?length_insert; exact Href |]);
    repeat split.
Qed.

Lemma play_starts_with_a_timer_iff_the_edit_succeeds_witness :
  let w' := exec (runRPSPvP unreachable_services 0
                    (entered "4242" pending_row "awaiting_offer_response" 0)) offered in
  activeHelperGames w' !! 7%Z = Some 0%nat /\
  exists s',
    heap w' !! 0%nat = Some s' /\
    status (gameState_of s') = JStr "pvp_awaiting_choices" /\
    fst (runRPSPvP unreachable_services 0
           (entered "4242" pending_row "awaiting_offer_response" 0) offered)
    = Throw "rejected" /\
    timers w' = timers offered /\ timeoutId s' = Some 0%nat.
Proof.
  refine (play_starts_with_a_timer_iff_the_edit_succeeds unreachable_services 0
            (entered "4242" pending_row "awaiting_offer_response" 0) offered _
            (runRPSPvP unreachable_services) "pvp_awaiting_choices" "pvp_choices" _).
  - vm_compute. lia.
  - right. repeat split.
Defined.

(** X9. Whoever accepts an open offer as a duel, and is not its initiator,
    becomes the opponent: with the answer and the edit going through, the
    session object holds the actor as opponent under their display
    reference, is in [pvp_awaiting_choices] with both choices reset to
    [null], whatever they were, keeps its initiator, and has a fresh timer
    of context [pvp_choices] pending; no row is written. *)
Theorem accept_pvp_seats_the_actor
    (E : env) (cq : callback_query) (w : world) sid ref s :
  action_of cq = "cf_helper_accept_pvp" ->
  sessionId_of cq = Some sid ->
  lookup_session w (Some sid) = Some (ref, s) ->
  clickerId_of cq <> js_String (initiator_id (fields s)) ->
  succeeds E (clock w) = true -> succeeds E (S (clock w)) = true ->
  let w' := exec (on_callback_query E cq) w in
  fst (on_callback_query E cq w) = Ok tt /\
  rps_sessions w' = rps_sessions w /\
  length (timers w') = S (length (timers w)) /\
  timers w' !! length (timers w) = Some (Some (session_id (fields s), "pvp_choices")) /\
  exists s',
    heap w' !! ref = Some s' /\
    timeoutId s' = Some (length (timers w)) /\
    opponent_id (fields s') = JStr (clickerId_of cq) /\
    initiator_id (fields s') = initiator_id (fields s) /\
    opponentName (gameState_of s') = getPlayerDisplayReference (Some (cq_from cq)) /\
    status (gameState_of s') = JStr "pvp_awaiting_choices" /\
    p1_choice (gameState_of s') = JNull /\ p2_choice (gameState_of s') = JNull.
Proof.
  intros Hact Hsid Hl Hclick H0 H1. cbv zeta.
  pose proof (lookup_lt_Some _ _ _ (lookup_session_heap _ _ _ _ Hl)) as Href.
  apply String.eqb_neq in Hclick.
  open_handler. branch.
  unfold clear_if_set; destruct (timeoutId s); unfold runRPSPvP; mon; proj.
  all: cbn [fields on_game_state on_fields session_id set_game_state_json
            set_opponent_id chat_id gameState_of game_state_json].
  all: do 2 (rewrite external_eq; proj; rewrite ?H0, ?H1; cbv beta iota; proj).
  all: ext.
  all: rewrite ?length_app, ?length_insert; cbn [length].
  all: split; [reflexivity |]; split; [reflexivity |]; split; [lia |].
  all: split; [apply list_lookup_middle; rewrite ?length_insert; reflexivity |].
  all: eexists; split;
    [apply list_lookup_insert_eq; rewrite ?length_insert; exact Href |].
  all: repeat split.
Qed.

Lemma accept_pvp_seats_the_actor_witness :
  let cq := click bob "cf_helper_accept_pvp:7" in
  fst (on_callback_query reliable cq offered) = Ok tt /\
  rps_sessions duel = rps_sessions offered /\
  length (timers duel) = 2%nat /\
  timers duel !! 1%nat = Some (Some (7%Z, "pvp_choices")) /\
  exists s',
    heap duel !! 0%nat = Some s' /\
    timeoutId s' = Some 1%nat /\
    opponent_id (fields s') = JStr "200" /\
    initiator_id (fields s') = JStr "100" /\
    opponentName (gameState_of s') = JStr "Bob" /\
    status (gameState_of s') = JStr "pvp_awaiting_choices" /\
    p1_choice (gameState_of s') = JNull /\ p2_choice (gameState_of s') = JNull.
Proof.
  refine (accept_pvp_seats_the_actor reliable (click bob "cf_helper_accept_pvp:7")
            offered 7 0%nat (entered "4242" pending_row "awaiting_offer_response" 0)
            eq_refl eq_refl eq_refl _ eq_refl eq_refl).
  discriminate.
Defined.

(** *** A choice against the bot *)

(** X7. A choice of the closed set, sent by the initiator of a game against
    the bot with the transport and the datastore answering, ends the game
    at once: the bot draws one of the three choices, the row is written
    with both choices in its game state and with [completed_push] when the
    two are equal, [completed_p1_win] when the player's beats the bot's and
    [completed_bot_win] when the bot's beats the player's, and the session
    leaves the session table. *)
Theorem pvb_choice_decides_the_game
    (E : env) (cq : callback_query) (w : world) sid ref s :
  action_of cq = "rps_helper_pvb_choice" ->
  sessionId_of cq = Some sid ->
  lookup_session w (Some sid) = Some (ref, s) ->
  clickerId_of cq = js_String (initiator_id (fields s)) ->
  valid_choice (param_of cq) ->
  succeeds E (clock w) = true ->
  succeeds E (S (S (clock w))) = true ->
  succeeds E (S (S (S (clock w)))) = true ->
  let w' := exec (on_callback_query E cq) w in
  exists botChoice finalStatus,
    botChoice ∈ RPS_CHOICES_values /\
    (finalStatus = "completed_push" /\ normalise (param_of cq) = botChoice
     \/ finalStatus = "completed_p1_win" /\ beats_rel (normalise (param_of cq)) botChoice
     \/ finalStatus = "completed_bot_win" /\ beats_rel botChoice (normalise (param_of cq))) /\
    rps_sessions w' =
      map (finalize_row finalStatus
             (set_bot_choice (JStr botChoice)
                (set_p1_choice (param_of cq) (gameState_of s))) sid)
          (rps_sessions w) /\
    activeHelperGames w' !! sid = None.
Proof.
  intros Hact Hsid Hl Hclick Hvalid H0 H2 H3. cbv zeta.
  destruct (random_choice_in_range E (S (clock w))) as [c Hc].
  pose proof (list_elem_of_lookup_2 _ _ _ Hc) as Hin.
  exists c,
    (pvb_final_status (determineRPSOutcome (param_of cq) (JStr c)
                         (initiatorName (gameState_of s)) (JStr "Bot"))).
  split; [exact Hin |]. split.
  - unfold pvb_final_status. rewrite result_verdict.
    rewrite (toLowerCase_choice c Hin).
    unfold valid_choice in Hvalid. apply includes_choices in Hvalid.
    apply elem_of_choices in Hin.
    destruct Hvalid as [-> | [-> | ->]]; destruct Hin as [-> | [-> | ->]];
      vm_compute; first [ left; split; reflexivity
                        | right; left; split; [reflexivity | constructor]
                        | right; right; split; [reflexivity | constructor] ].
  - open_handler. branch.
    unfold clear_if_set; destruct (timeoutId s); mon.
    all: repeat (rewrite external_eq; proj; rewrite ?H0, ?H2, ?H3;
                 cbv beta iota; proj; rewrite ?Hc).
    all: rewrite finalizeAndRecordOutcome_eq; proj; rewrite ?H3;
      unfold finalized; proj.
    all: split; [reflexivity | apply lookup_delete_eq].
Qed.

Lemma pvb_choice_decides_the_game_witness :
  let cq := click ann "rps_helper_pvb_choice:7:Paper" in
  let w' := exec (on_callback_query reliable cq) versus_bot in
  exists botChoice finalStatus,
    botChoice ∈ RPS_CHOICES_values /\
    (finalStatus = "completed_push" /\ "paper" = botChoice
     \/ finalStatus = "completed_p1_win" /\ beats_rel "paper" botChoice
     \/ finalStatus = "completed_bot_win" /\ beats_rel botChoice "paper") /\
    rps_sessions w' =
      map (finalize_row finalStatus
             (set_bot_choice (JStr botChoice)
                (set_p1_choice (JStr "Paper") (gameState_of bot_session))) 7)
          (rps_sessions versus_bot) /\
    activeHelperGames w' !! 7%Z = None.
Proof.
  exact (pvb_choice_decides_the_game reliable
           (click ann "rps_helper_pvb_choice:7:Paper") versus_bot 7 0%nat bot_session
           eq_refl eq_refl eq_refl eq_refl eq_refl eq_refl eq_refl eq_refl).
Defined.

(** *** Withdrawing an offer or a challenge *)

(** X12. A cancel by the initiator whose acknowledgement went through
    sends the one write of [completed_cancelled], whether or not the offer
    message could be deleted; the session leaves the session table when that
    write succeeds. A cancel whose acknowledgement is rejected writes
    nothing and leaves the session in the session table. *)
Theorem cancel_survives_a_failed_delete
    (E : env) (cq : callback_query) (w : world) sid ref s :
  action_of cq = "cf_helper_cancel" ->
  sessionId_of cq = Some sid ->
  lookup_session w (Some sid) = Some (ref, s) ->
  clickerId_of cq = js_String (initiator_id (fields s)) ->
  let w' := exec (on_callback_query E cq) w in
  if succeeds E (clock w)
  then fst (on_callback_query E cq w) = Ok tt /\
       queries (new_effects w w')
       = [SqlFinal "completed_cancelled" (gameState_of s) sid] /\
       (succeeds E (S (S (clock w))) = true ->
        rps_sessions w'
        = map (finalize_row "completed_cancelled" (gameState_of s) sid)
              (rps_sessions w) /\
        activeHelperGames w' !! sid = None)
  else fst (on_callback_query E cq w) = Throw "rejected" /\
       queries (new_effects w w') = [] /\
       rps_sessions w' = rps_sessions w /\
       activeHelperGames w' = activeHelperGames w.
Proof.
  intros Hact Hsid Hl Hclick. cbv zeta.
  open_handler. branch.
  unfold clear_if_set; destruct (timeoutId s); mon; rewrite external_eq; proj.
  all: destruct (succeeds E (clock w)) eqn:H0; cbv beta iota; proj.
  all: ext; unfold finalized.
  all: repeat match goal with
              | |- context [if ?c then _ else _] => destruct c eqn:?
              end; proj.
  all: rewrite <- ?app_assoc; cbn [app]; rewrite drop_app_length.
  all: repeat split; try reflexivity; try congruence.
  all: apply lookup_delete_eq.
Qed.

Lemma cancel_survives_a_failed_delete_witness :
  let E := failing_at 6 in
  let cq := click ann "cf_helper_cancel:7" in
  let w' := exec (on_callback_query E cq) offered in
  fst (on_callback_query E cq offered) = Ok tt /\
  queries (new_effects offered w')
  = [SqlFinal "completed_cancelled"
       (gameState_of (entered "4242" pending_row "awaiting_offer_response" 0)) 7] /\
  (true = true ->
   rps_sessions w'
   = map (finalize_row "completed_cancelled"
            (gameState_of (entered "4242" pending_row "awaiting_offer_response" 0)) 7)
         (rps_sessions offered) /\
   activeHelperGames w' !! 7%Z = None).
Proof.
  exact (cancel_survives_a_failed_delete
           (failing_at 6)
           (click ann "cf_helper_cancel:7") offered 7 0%nat
           (entered "4242" pending_row "awaiting_offer_response" 0)
           eq_refl eq_refl eq_refl eq_refl).
Defined.

(** X13. A decline by the designated opponent is recorded, as
    [completed_cancelled], only when the message could be edited to say so:
    with the edit rejected no write is sent and the challenge stays in the
    session table, its timer cleared by the event. *)
Theorem decline_needs_the_edit
    (E : env) (cq : callback_query) (w : world) sid ref s :
  action_of cq = "cf_helper_decline_direct" ->
  sessionId_of cq = Some sid ->
  lookup_session w (Some sid) = Some (ref, s) ->
  clickerId_of cq = js_String (opponent_id (fields s)) ->
  clickerId_of cq <> js_String (initiator_id (fields s)) ->
  succeeds E (clock w) = true ->
  let w' := exec (on_callback_query E cq) w in
  if succeeds E (S (clock w))
  then queries (new_effects w w')
       = [SqlFinal "completed_cancelled" (gameState_of s) sid] /\
       (succeeds E (S (S (clock w))) = true ->
        rps_sessions w'
        = map (finalize_row "completed_cancelled" (gameState_of s) sid)
              (rps_sessions w) /\
        activeHelperGames w' !! sid = None)
  else fst (on_callback_query E cq w) = Throw "rejected" /\
       queries (new_effects w w') = [] /\
       rps_sessions w' = rps_sessions w /\
       activeHelperGames w' = activeHelperGames w /\
       heap w' = heap w /\
       (forall t, timeoutId s = Some t -> (t < length (timers w))%nat ->
                  timers w' !! t = Some None).
Proof.
  intros Hact Hsid Hl Hclick Hnot H0. cbv zeta.
  apply String.eqb_neq in Hnot.
  open_handler. branch. rewrite ?Hnot. cbn [andb negb].
  unfold clear_if_set; destruct (timeoutId s); mon; rewrite external_eq; proj.
  all: rewrite H0; cbv beta iota; proj.
  all: rewrite external_eq; proj.
  all: destruct (succeeds E (S (clock w))) eqn:H1; cbv beta iota; proj.
  all: ext; unfold finalized.
  all: repeat match goal with
              | |- context [if ?c then _ else _] => destruct c eqn:?
              end; proj.
  all: rewrite <- ?app_assoc; cbn [app]; rewrite drop_app_length.
  all: repeat split; try reflexivity; try congruence.
  all: try apply lookup_delete_eq.
  all: intros t [= <-] Ht; apply list_lookup_insert_eq; exact Ht.
Qed.

Lemma decline_needs_the_edit_witness :
  let cq := click bob "cf_helper_decline_direct:8" in
  let w' := exec (on_callback_query (failing_at 6) cq) challenged in
  fst (on_callback_query (failing_at 6) cq challenged) = Throw "rejected" /\
  queries (new_effects challenged w') = [] /\
  rps_sessions w' = rps_sessions challenged /\
  activeHelperGames w' = activeHelperGames challenged /\
  heap w' = heap challenged /\
  (forall t, Some 0%nat = Some t -> (t < 1)%nat -> timers w' !! t = Some None).
Proof.
  refine (decline_needs_the_edit (failing_at 6)
            (click bob "cf_helper_decline_direct:8") challenged 8 0%nat
            (entered "4242" challenge_row "awaiting_direct_response" 0)
            eq_refl eq_refl eq_refl eq_refl _ eq_refl).
  discriminate.
Defined.

(** *** Picking up a session *)

Ltac open_claim :=
  unfold exec, new_effects, handleNewGameSession, client_query_begin,
    client_query_claim, client_query_commit, client_query_rollback,
    client_release, runUnifiedOffer, runDirectChallenge;
  mon.

(** A claim that finds no row. *)
Lemma handleNewGameSession_none (E : env) (BOT_ID mainBotGameId : string) (w : world) :
  List.filter (claimable mainBotGameId) (rps_sessions w) = [] ->
  let w' := exec (handleNewGameSession E BOT_ID mainBotGameId) w in
  heap w' = heap w /\ activeHelperGames w' = activeHelperGames w /\
  timers w' = timers w /\ rps_sessions w' = rps_sessions w.
Proof.
  intros Hnone. cbv zeta. open_claim.
  ext; rewrite ?Hnone; cbn [map]; ext.
  all: repeat split; reflexivity.
Qed.

(** A claim that finds rows, with the datastore answering. *)
Lemma handleNewGameSession_some
    (E : env) (BOT_ID mainBotGameId : string) (w : world) (r : row) (rest : list row) :
  List.filter (claimable mainBotGameId) (rps_sessions w) = r :: rest ->
  succeeds E (clock w) = true -> succeeds E (S (clock w)) = true ->
  succeeds E (S (S (clock w))) = true ->
  succeeds E (S (S (S (clock w)))) = true ->
  let w' := exec (handleNewGameSession E BOT_ID mainBotGameId) w in
  let substate := if truthy (opponent_id r) then "awaiting_direct_response"
                  else "awaiting_offer_response" in
  let context := if truthy (opponent_id r) then "direct_challenge" else "offer" in
  rps_sessions w' = claim_update BOT_ID mainBotGameId (rps_sessions w) /\
  activeHelperGames w' = <[session_id r := length (heap w)]> (activeHelperGames w) /\
  heap w' = (heap w ++ [entered BOT_ID r substate (length (timers w))])%list /\
  timers w' = (timers w ++ [Some (session_id r, context)])%list.
Proof.
  intros Hsome H0 H1 H2 H3. cbv zeta. open_claim.
  repeat (rewrite external_eq; proj; rewrite ?H0, ?H1, ?H2, ?H3;
          cbv beta iota; rewrite ?Hsome; cbn [map]).
  cbn [fields claimed set_helper_bot_id set_db_status opponent_id session_id].
  destruct (truthy (opponent_id r)) eqn:Ht; ext; proj.
  all: rewrite !insert_last.
  all: repeat split; reflexivity.
Qed.

Lemma claimable_claimed (BOT_ID mainBotGameId : string) (r : row) :
  claimable mainBotGameId (claimed BOT_ID r) = false.
Proof. unfold claimable, claimed. cbn. apply andb_false_r. Qed.

Lemma claim_update_leaves_nothing (BOT_ID mainBotGameId : string) (t : list row) :
  List.filter (claimable mainBotGameId) (claim_update BOT_ID mainBotGameId t) = [].
Proof.
  unfold claim_update. induction t as [| r t IH]; [reflexivity |].
  cbn [map List.filter].
  destruct (claimable mainBotGameId r) eqn:Hc.
  - rewrite claimable_claimed. exact IH.
  - rewrite Hc. exact IH.
Qed.

(** X15. A pickup is not repeated: once a notification for a game has been
    handled with the datastore answering, no row of that game is left to
    claim, and a second notification for it, whatever the transport and the
    datastore then do, changes neither the session objects, the session
    table, the timers nor the rows. *)
Theorem second_notification_claims_nothing
    (E E' : env) (BOT_ID BOT_ID' mainBotGameId : string) (w : world) :
  succeeds E (clock w) = true -> succeeds E (S (clock w)) = true ->
  succeeds E (S (S (clock w))) = true ->
  succeeds E (S (S (S (clock w)))) = true ->
  let w1 := exec (handleNewGameSession E BOT_ID mainBotGameId) w in
  let w2 := exec (handleNewGameSession E' BOT_ID' mainBotGameId) w1 in
  List.filter (claimable mainBotGameId) (rps_sessions w1) = [] /\
  heap w2 = heap w1 /\ activeHelperGames w2 = activeHelperGames w1 /\
  timers w2 = timers w1 /\ rps_sessions w2 = rps_sessions w1.
Proof.
  intros H0 H1 H2 H3. cbv zeta.
  assert (Hnone : List.filter (claimable mainBotGameId)
                    (rps_sessions (exec (handleNewGameSession E BOT_ID mainBotGameId) w))
                  = []).
  { destruct (List.filter (claimable mainBotGameId) (rps_sessions w))
      as [| r rest] eqn:Hm.
    - destruct (handleNewGameSession_none E BOT_ID mainBotGameId w Hm)
        as (_ & _ & _ & ->). exact Hm.
    - destruct (handleNewGameSession_some E BOT_ID mainBotGameId w r rest
                  Hm H0 H1 H2 H3) as (-> & _).
      apply claim_update_leaves_nothing. }
  split; [exact Hnone |].
  exact (handleNewGameSession_none E' BOT_ID' mainBotGameId _ Hnone).
Qed.

Lemma second_notification_claims_nothing_witness :
  let w2 := exec (handleNewGameSession unreachable_services "4243" "g7") offered in
  List.filter (claimable "g7") (rps_sessions offered) = [] /\
  heap w2 = heap offered /\ activeHelperGames w2 = activeHelperGames offered /\
  timers w2 = timers offered /\ rps_sessions w2 = rps_sessions offered.
Proof.
  exact (second_notification_claims_nothing reliable unreachable_services
           "4242" "4243" "g7" start eq_refl eq_refl eq_refl eq_refl).
Defined.

(** X16. When the conditional update matches several rows, every one of
    them is marked [in_progress] for this worker, and only the first one
    returned is loaded: one session object is created and one entry filed,
    so the other rows are in progress with no session behind them. *)
Theorem claim_loads_only_the_first_row
    (E : env) (BOT_ID mainBotGameId : string) (w : world) (r : row) (rest : list row) :
  List.filter (claimable mainBotGameId) (rps_sessions w) = r :: rest ->
  succeeds E (clock w) = true -> succeeds E (S (clock w)) = true ->
  succeeds E (S (S (clock w))) = true ->
  succeeds E (S (S (S (clock w)))) = true ->
  let w' := exec (handleNewGameSession E BOT_ID mainBotGameId) w in
  (forall r', r' ∈ r :: rest -> claimed BOT_ID r' ∈ rps_sessions w') /\
  length (heap w') = S (length (heap w)) /\
  activeHelperGames w' = <[session_id r := length (heap w)]> (activeHelperGames w) /\
  length (timers w') = S (length (timers w)).
Proof.
  intros Hsome H0 H1 H2 H3. cbv zeta.
  destruct (handleNewGameSession_some E BOT_ID mainBotGameId w r rest
              Hsome H0 H1 H2 H3) as (-> & -> & -> & ->).
  rewrite !length_app. cbn [length].
  split; [| repeat split; lia].
  intros r' Hr'. rewrite <- Hsome in Hr'.
  apply list_elem_of_In, filter_In in Hr'. destruct Hr' as [Hin Hc].
  unfold claim_update. apply list_elem_of_In, in_map_iff.
  exists r'. rewrite Hc. split; [reflexivity | exact Hin].
Qed.

Lemma claim_loads_only_the_first_row_witness :
  let w' := exec (handleNewGameSession reliable "4242" "g7") double_booked in
  (forall r', r' ∈ [pending_row; twin_row] -> claimed "4242" r' ∈ rps_sessions w') /\
  length (heap w') = 1%nat /\
  activeHelperGames w' = <[7%Z := 0%nat]> ∅ /\
  length (timers w') = 1%nat.
Proof.
  exact (claim_loads_only_the_first_row reliable "4242" "g7" double_booked
           pending_row [twin_row] eq_refl eq_refl eq_refl eq_refl eq_refl).
Defined.

(** X14. A pickup that fails at the connection, at the opening of the
    transaction, at the conditional update or at the statement that ends
    the transaction claims nothing: session objects, session table, timers
    and committed rows are as before. *)
Theorem failed_claim_leaves_no_trace
    (E : env) (BOT_ID mainBotGameId : string) (w : world) :
  succeeds E (clock w) = false \/ succeeds E (S (clock w)) = false
  \/ succeeds E (S (S (clock w))) = false
  \/ succeeds E (S (S (S (clock w)))) = false ->
  let w' := exec (handleNewGameSession E BOT_ID mainBotGameId) w in
  heap w' = heap w /\ activeHelperGames w' = activeHelperGames w /\
  timers w' = timers w /\ rps_sessions w' = rps_sessions w.
Proof.
  intros H. cbv zeta. open_claim.
  rewrite external_eq; proj.
  destruct (succeeds E (clock w)) eqn:H0; cbv beta iota; proj;
    [| repeat split; reflexivity].
  rewrite external_eq; proj.
  destruct (succeeds E (S (clock w))) eqn:H1; cbv beta iota; proj;
    [| ext; repeat split; reflexivity].
  rewrite external_eq; proj.
  destruct (succeeds E (S (S (clock w)))) eqn:H2; cbv beta iota; proj;
    [| ext; repeat split; reflexivity].
  assert (H3 : succeeds E (S (S (S (clock w)))) = false)
    by (destruct H as [H | [H | [H | H]]]; congruence).
  destruct (List.filter _ _) as [| r rest]; cbn [map];
    rewrite external_eq; proj; rewrite H3; cbv beta iota; proj;
    ext; repeat split; reflexivity.
Qed.

Lemma failed_claim_leaves_no_trace_witness :
  let w' := exec (handleNewGameSession (failing_at 3) "4242" "g7") start in
  heap w' = heap start /\ activeHelperGames w' = activeHelperGames start /\
  timers w' = timers start /\ rps_sessions w' = rps_sessions start.
Proof.
  refine (failed_claim_leaves_no_trace (failing_at 3) "4242" "g7" start _).
  right. right. right. reflexivity.
Defined.

(** X17. The connection taken from the pool is given back on every path of
    a pickup, and only when one was obtained. The release does not wait for
    the transaction to be ended: when the connection, [BEGIN], the update
    and the statement after it are answered no transaction is open
    afterwards, but when [BEGIN] is answered and the update and the
    [ROLLBACK] of the [catch] block are both rejected, the client goes back
    to the pool with its transaction still open. *)
Theorem pickup_releases_the_connection
    (E : env) (BOT_ID mainBotGameId : string) (w : world) :
  let w' := exec (handleNewGameSession E BOT_ID mainBotGameId) w in
  (if succeeds E (clock w)
   then ClientRelease ∈ new_effects w w'
   else ClientRelease ∉ new_effects w w') /\
  (succeeds E (clock w) = true -> succeeds E (S (clock w)) = true ->
   succeeds E (S (S (clock w))) = true ->
   succeeds E (S (S (S (clock w)))) = true ->
   transaction w' = None) /\
  (succeeds E (clock w) = true -> succeeds E (S (clock w)) = true ->
   succeeds E (S (S (clock w))) = false ->
   succeeds E (S (S (S (clock w)))) = false ->
   transaction w' = Some (rps_sessions w) /\
   last (new_effects w w') = Some ClientRelease).
Proof.
  cbv zeta. split; [| split].
  - open_claim. rewrite external_eq; proj.
    destruct (succeeds E (clock w)) eqn:H0; cbv beta iota; proj.
    2:{ rewrite <- ?app_assoc; cbn [app]; rewrite drop_app_length.
        rewrite !not_elem_of_cons.
        repeat split; try discriminate. apply not_elem_of_nil. }
    ext.
    all: try (destruct (List.filter _ _) as [| r rest]; cbn [map]; ext).
    all: repeat match goal with
                | |- context [if ?c then _ else _] => destruct c eqn:?
                end; proj; ext; proj.
    all: rewrite <- ?app_assoc; cbn [app]; rewrite drop_app_length.
    all: rewrite !elem_of_cons; auto 20.
  - intros H0 H1 H2 H3. open_claim.
    repeat (rewrite external_eq; proj; rewrite ?H0, ?H1, ?H2, ?H3;
            cbv beta iota; proj).
    destruct (List.filter _ _) as [| r rest]; cbn [map];
      repeat (rewrite external_eq; proj; rewrite ?H0, ?H1, ?H2, ?H3;
              cbv beta iota; proj); [reflexivity |].
    destruct (truthy _); ext; reflexivity.
  - intros H0 H1 H2 H3. open_claim.
    repeat (rewrite external_eq; proj; rewrite ?H0, ?H1, ?H2, ?H3;
            cbv beta iota; proj).
    split; [reflexivity |].
    rewrite <- ?app_assoc; cbn [app]; rewrite drop_app_length. reflexivity.
Qed.

Lemma pickup_releases_the_connection_witness :
  let w' := exec (handleNewGameSession (failing_from 2) "4242" "g7") start in
  transaction w' = Some (rps_sessions start) /\
  last (new_effects start w') = Some ClientRelease.
Proof.
  exact (proj2 (proj2 (pickup_releases_the_connection (failing_from 2) "4242" "g7" start))
           eq_refl eq_refl eq_refl eq_refl).
Defined.

(** *** What an event does, in one place *)

Lemma completed_pvb o : pvb_final_status o ∈ completed_statuses.
Proof.
  unfold pvb_final_status, completed_statuses.
  repeat destruct (String.eqb _ _); rewrite !elem_of_cons; auto 10.
Qed.

Lemma completed_pvp o : pvp_final_status o ∈ completed_statuses.
Proof.
  unfold pvp_final_status, completed_statuses.
  repeat destruct (String.eqb _ _); rewrite !elem_of_cons; auto 10.
Qed.

Ltac completed :=
  first [ apply completed_pvb | apply completed_pvp
        | unfold completed_statuses; rewrite !elem_of_cons; auto 10 ].

(** An action event on a session in memory: the one object it writes, the
    one timer it may arm, the one entry and the rows of the one session it
    may touch. *)
Lemma on_callback_query_summary (E : env) (cq : callback_query) (w : world) sid ref0 s0 :
  sessionId_of cq = Some sid ->
  lookup_session w (Some sid) = Some (ref0, s0) ->
  let w' := exec (on_callback_query E cq) w in
  exists (s' : session) (armed : option string),
    heap w' = <[ref0 := s']> (heap w) /\
    session_id (fields s') = session_id (fields s0) /\
    timeoutId s' = match armed with
                   | Some _ => Some (length (timers w))
                   | None => timeoutId s0
                   end /\
    timers w' = match armed with
                | Some context =>
                  (disarmed s0 (timers w) ++ [Some (session_id (fields s0), context)])%list
                | None => disarmed s0 (timers w)
                end /\
    (activeHelperGames w' = activeHelperGames w
     \/ activeHelperGames w' = <[session_id (fields s0) := ref0]> (activeHelperGames w)
     \/ activeHelperGames w' = delete sid (activeHelperGames w)) /\
    (rps_sessions w' = rps_sessions w
     \/ exists st gs, st ∈ completed_statuses /\
                      rps_sessions w' = map (finalize_row st gs sid) (rps_sessions w)).
Proof.
  intros Hsid Hl. cbv zeta.
  pose proof (lookup_session_heap _ _ _ _ Hl) as Hh.
  unfold exec, on_callback_query, disarmed. unfold sessionId_of in Hsid.
  destruct (destructure _) as [[action sidstr] p0]. cbn [fst snd] in Hsid.
  mon. rewrite Hsid, Hl. cbv beta iota.
  unfold clear_if_set; cbn [timeoutId on_game_state on_fields set_timeoutId].
  destruct (timeoutId s0) eqn:Ht; mon;
  repeat match goal with
         | |- context [if ?c then _ else _] =>
           lazymatch c with
           | context [succeeds] => fail
           | _ => destruct c eqn:?
           end
         | |- context [match ?c with Some _ => _ | None => _ end] =>
           destruct c eqn:?
         end;
    unfold runRPSPvB, runRPSPvP; mon; proj; ext;
    unfold finalized;
    repeat match goal with
           | |- context [if ?c then _ else _] => destruct c eqn:?
           end; proj.
  all: cbn [fields session_id on_game_state on_fields set_opponent_id
            set_game_state_json set_timeoutId timeoutId].
  all: rewrite ?length_insert, ?list_insert_insert_eq.
  all: lazymatch goal with
       | |- exists s' armed, <[_ := ?x]> _ = _ /\ _ => exists x
       | |- _ => exists s0
       end.
  all: lazymatch goal with
       | |- exists armed, _ /\ _ /\ _ /\ (_ ++ [Some (_, ?context)])%list = _ /\ _ =>
         exists (Some context)
       | |- _ => exists None
       end.
  all: (split; [first [reflexivity | symmetry; apply list_insert_id; exact Hh] |]).
  all: cbn [fields session_id on_game_state on_fields set_opponent_id
            set_game_state_json set_timeoutId timeoutId]; rewrite ?Ht.
  all: do 3 (split; [reflexivity |]).
  all: (split; [auto |]).
  all: first [ left; reflexivity
             | right; eexists _, _; split; [| reflexivity]; completed ].
Qed.

(** The expiry of a timer. *)
Lemma fire_summary (E : env) (t : nat) (w : world) :
  let w' := exec (fire E t) w in
  heap w' = heap w /\
  match timers w !! t with
  | Some (Some (sid, context)) =>
    timers w' = <[t := None]> (timers w) /\
    (activeHelperGames w' = activeHelperGames w
     \/ activeHelperGames w' = delete sid (activeHelperGames w)) /\
    (rps_sessions w' = rps_sessions w
     \/ exists st gs, st ∈ completed_statuses /\
                      rps_sessions w' = map (finalize_row st gs sid) (rps_sessions w))
  | _ =>
    timers w' = timers w /\ activeHelperGames w' = activeHelperGames w /\
    rps_sessions w' = rps_sessions w
  end.
Proof.
  cbv zeta. unfold exec, fire. mon.
  destruct (timers w !! t) as [[[sid context] |] |]; cbv beta iota; proj;
    try (repeat split; reflexivity).
  unfold handleGameTimeout, lookup_session. mon. proj.
  destruct (activeHelperGames w !! sid) as [ref |]; [| repeat split; auto].
  destruct (heap w !! ref) as [s |]; [| repeat split; auto].
  repeat match goal with
         | |- context [if ?c then _ else _] =>
           lazymatch c with
           | context [succeeds] => fail
           | _ => destruct c eqn:?
           end
         end;
    ext; unfold finalized;
    repeat match goal with
           | |- context [if ?c then _ else _] => destruct c eqn:?
           end; proj.
  all: do 2 (split; [reflexivity |]).
  all: (split; [auto |]).
  all: first [ left; reflexivity
             | right; eexists _, _; split; [| reflexivity]; completed ].
Qed.

(** A pickup either changes nothing in memory and in the table, or claims:
    the rows are updated, one object is created with its timer, and one
    entry is filed. *)
Lemma handleNewGameSession_summary (E : env) (BOT_ID mainBotGameId : string) (w : world) :
  let w' := exec (handleNewGameSession E BOT_ID mainBotGameId) w in
  (heap w' = heap w /\ activeHelperGames w' = activeHelperGames w /\
   timers w' = timers w /\ rps_sessions w' = rps_sessions w)
  \/ exists (r : row) (s' : session) (context : string),
       r ∈ rps_sessions w /\ claimable mainBotGameId r = true /\
       rps_sessions w' = claim_update BOT_ID mainBotGameId (rps_sessions w) /\
       heap w' = (heap w ++ [s'])%list /\
       session_id (fields s') = session_id r /\
       timeoutId s' = Some (length (timers w)) /\
       timers w' = (timers w ++ [Some (session_id r, context)])%list /\
       activeHelperGames w' = <[session_id r := length (heap w)]> (activeHelperGames w).
Proof.
  cbv zeta. open_claim.
  ext; try (left; repeat split; reflexivity).
  all: destruct (List.filter _ _) as [| r rest] eqn:Hm; cbn [map]; ext;
    try (left; repeat split; reflexivity).
  all: assert (Hr : r ∈ rps_sessions w /\ claimable mainBotGameId r = true)
    by (rewrite list_elem_of_In, <- filter_In, Hm; left; reflexivity).
  all: destruct Hr as [Hin Hc].
  all: cbn [fields claimed set_helper_bot_id set_db_status opponent_id session_id].
  all: destruct (truthy (opponent_id r)) eqn:Ho; ext; proj.
  all: rewrite !insert_last.
  all: right; exists r; eexists _, _.
  all: do 3 (split; [first [assumption | reflexivity] |]).
  all: repeat split; reflexivity.
Qed.

(** *** Rows *)

Lemma status_forward_refl a : status_forward a a.
Proof. left. reflexivity. Qed.

Lemma not_completed_pending : "pending_pickup" ∉ completed_statuses.
Proof.
  unfold completed_statuses. rewrite !not_elem_of_cons.
  repeat split; try discriminate. apply not_elem_of_nil.
Qed.

Lemma status_forward_trans a b c :
  status_forward a b -> status_forward b c -> status_forward a c.
Proof.
  unfold status_forward. intros Hab Hbc.
  destruct Hbc as [Hc | [[Hb Hc] | Hc]].
  - subst c. exact Hab.
  - destruct Hab as [Ha | [[_ Hb'] | Hb']].
    + subst b. right. left. split; assumption.
    + rewrite Hb in Hb'. discriminate Hb'.
    + rewrite Hb in Hb'. destruct (not_completed_pending Hb').
  - right. right. exact Hc.
Qed.

Lemma row_step_refl r : row_step r r.
Proof. split; [reflexivity | apply status_forward_refl]. Qed.

Lemma row_step_trans r1 r2 r3 : row_step r1 r2 -> row_step r2 r3 -> row_step r1 r3.
Proof.
  intros [I1 S1] [I2 S2]. split; [congruence |].
  eapply status_forward_trans; eassumption.
Qed.

Lemma rows_step_refl t : rows_step t t.
Proof. induction t; constructor; [apply row_step_refl | assumption]. Qed.

Lemma rows_step_trans t1 t2 t3 : rows_step t1 t2 -> rows_step t2 t3 -> rows_step t1 t3.
Proof.
  intros H. revert t3. induction H as [| r1 r2 t1 t2 Hr _ IH]; intros t3 H3.
  - inversion H3. constructor.
  - inversion H3 as [| ? r3 ? t3' Hr3 Ht3]; subst. constructor.
    + eapply row_step_trans; eassumption.
    + apply IH. assumption.
Qed.

Lemma rows_step_map (f : row -> row) t :
  (forall r, row_step r (f r)) -> rows_step t (map f t).
Proof. intros Hf. induction t; constructor; [apply Hf | assumption]. Qed.

Lemma rows_step_finalize st gs sid t :
  st ∈ completed_statuses -> rows_step t (map (finalize_row st gs sid) t).
Proof.
  intros Hst. apply rows_step_map. intros r. unfold finalize_row.
  destruct (session_id r =? sid)%Z; [| apply row_step_refl].
  split; [reflexivity |]. right. right. exact Hst.
Qed.

Lemma rows_step_claim BOT_ID mainBotGameId t :
  rows_step t (claim_update BOT_ID mainBotGameId t).
Proof.
  apply rows_step_map. intros r.
  destruct (claimable mainBotGameId r) eqn:Hc; [| apply row_step_refl].
  split; [reflexivity |]. right. left. split; [| reflexivity].
  unfold claimable in Hc. apply andb_true_iff in Hc as [_ Hc].
  apply String.eqb_eq in Hc. exact Hc.
Qed.

Lemma handle_rows_step (E : env) BOT_ID ev w :
  rows_step (rps_sessions w) (rps_sessions (exec (handle E BOT_ID ev) w)).
Proof.
  destruct ev as [mainBotGameId | cq | t]; cbn [handle].
  - destruct (handleNewGameSession_summary E BOT_ID mainBotGameId w)
      as [(_ & _ & _ & ->) | (r & s' & context & _ & _ & -> & _)].
    + apply rows_step_refl.
    + apply rows_step_claim.
  - destruct (lookup_session w (sessionId_of cq)) as [[ref0 s0] |] eqn:Hl.
    + destruct (sessionId_of cq) as [sid |] eqn:Hsid; [| discriminate].
      destruct (on_callback_query_summary E cq w sid ref0 s0 Hsid Hl)
        as (s' & armed & _ & _ & _ & _ & _ & [-> | (st & gs & Hst & ->)]).
      * apply rows_step_refl.
      * apply rows_step_finalize. exact Hst.
    + unfold exec. rewrite (on_callback_query_absent E cq w Hl), external_eq.
      apply rows_step_refl.
  - pose proof (fire_summary E t w) as [_ H]. cbv zeta in H.
    destruct (timers w !! t) as [[[sid context] |] |].
    + destruct H as (_ & _ & [-> | (st & gs & Hst & ->)]).
      * apply rows_step_refl.
      * apply rows_step_finalize. exact Hst.
    + destruct H as (_ & _ & ->). apply rows_step_refl.
    + destruct H as (_ & _ & ->). apply rows_step_refl.
Qed.

Lemma run_rows_step (E : env) BOT_ID evs w :
  rows_step (rps_sessions w) (rps_sessions (run E BOT_ID evs w)).
Proof.
  revert w. induction evs as [| ev rest IH]; intros w; cbn [run].
  - apply rows_step_refl.
  - eapply rows_step_trans; [apply handle_rows_step | apply IH].
Qed.

(** X18. No run of events adds or removes a row or changes the session id,
    the game id, the chat, the initiator or the opponent column of a row:
    the worker writes the status, its own id and the game state only. So
    the user who accepts an open offer is never entered in the opponent
    column. *)
Theorem rows_keep_their_identity (E : env) (BOT_ID : string) (evs : list event) (w : world) :
  map identity_columns (rps_sessions (run E BOT_ID evs w))
  = map identity_columns (rps_sessions w).
Proof.
  pose proof (run_rows_step E BOT_ID evs w) as H.
  induction H as [| r r' t t' [Hi _] _ IH]; [reflexivity |].
  cbn [map]. rewrite Hi, IH. reflexivity.
Qed.

(** X19. The status of a row only moves forward, whatever the events: it
    stays, goes from [pending_pickup] to [in_progress], or becomes one of
    the six completed statuses; a completed row stays completed and no row
    returns to [pending_pickup]. *)
Theorem row_status_moves_forward
    (E : env) (BOT_ID : string) (evs : list event) (w : world) (i : nat) (r : row) :
  rps_sessions w !! i = Some r ->
  exists r',
    rps_sessions (run E BOT_ID evs w) !! i = Some r' /\
    status_forward (db_status r) (db_status r') /\
    (db_status r ∈ completed_statuses -> db_status r' ∈ completed_statuses) /\
    (db_status r' = "pending_pickup" -> db_status r = "pending_pickup").
Proof.
  intros Hr.
  pose proof (run_rows_step E BOT_ID evs w) as H.
  destruct (Forall2_lookup_l _ _ _ _ _ H Hr) as (r' & Hr' & _ & Hs).
  exists r'. split; [exact Hr' |]. split; [exact Hs |].
  destruct Hs as [He | [[Hp Hi] | Hc]].
  - rewrite He. split; auto.
  - split.
    + intros Hcomp. rewrite Hp in Hcomp. destruct (not_completed_pending Hcomp).
    + intros Hq. rewrite Hi in Hq. discriminate Hq.
  - split.
    + intros _. exact Hc.
    + intros Hq. rewrite Hq in Hc. destruct (not_completed_pending Hc).
Qed.

Lemma row_status_moves_forward_witness :
  exists r',
    rps_sessions (run reliable "4242"
                    [Notification "g7"; Action (click ann "cf_helper_cancel:7");
                     Notification "g7"] start) !! 0%nat = Some r' /\
    status_forward "pending_pickup" (db_status r') /\
    ("pending_pickup" ∈ completed_statuses -> db_status r' ∈ completed_statuses) /\
    (db_status r' = "pending_pickup" -> "pending_pickup" = "pending_pickup").
Proof.
  exact (row_status_moves_forward reliable "4242"
           [Notification "g7"; Action (click ann "cf_helper_cancel:7");
            Notification "g7"] start 0 pending_row eq_refl).
Defined.

(** *** Consistency of the memory of the worker *)

Lemma disarmed_length s l : length (disarmed s l) = length l.
Proof. unfold disarmed. destruct (timeoutId s); [apply length_insert | reflexivity]. Qed.

Lemma disarmed_cleared s l t : l !! t = Some None -> disarmed s l !! t = Some None.
Proof.
  unfold disarmed. destruct (timeoutId s) as [t0 |]; [| auto].
  intros H. destruct (decide (t0 = t)) as [-> | Hne].
  - apply list_lookup_insert_eq. eapply lookup_lt_Some. exact H.
  - rewrite list_lookup_insert_ne by exact Hne. exact H.
Qed.

Lemma disarmed_lookup s l t x :
  l !! t = Some x -> disarmed s l !! t = Some x \/ disarmed s l !! t = Some None.
Proof.
  unfold disarmed. destruct (timeoutId s) as [t0 |]; [| auto].
  intros H. destruct (decide (t0 = t)) as [-> | Hne].
  - right. apply list_lookup_insert_eq. eapply lookup_lt_Some. exact H.
  - left. rewrite list_lookup_insert_ne by exact Hne. exact H.
Qed.

(** The timers of the sessions other than the one the event is for. *)
Lemma disarmed_other s l k t context :
  (forall t0, timeoutId s = Some t0 ->
              l !! t0 = Some None
              \/ exists c, l !! t0 = Some (Some (session_id (fields s), c))) ->
  k <> session_id (fields s) ->
  l !! t = Some (Some (k, context)) ->
  disarmed s l !! t = Some (Some (k, context)).
Proof.
  unfold disarmed. intros Hown Hk H.
  destruct (timeoutId s) as [t0 |]; [| exact H].
  destruct (decide (t0 = t)) as [-> | Hne].
  - destruct (Hown t eq_refl) as [H0 | [c H0]]; rewrite H0 in H;
      [discriminate | injection H as Hk' _; congruence].
  - rewrite list_lookup_insert_ne by exact Hne. exact H.
Qed.

Lemma lookup_session_consistent w k ref s :
  consistent w -> lookup_session w (Some k) = Some (ref, s) ->
  session_id (fields s) = k /\
  forall t, timeoutId s = Some t ->
            timers w !! t = Some None
            \/ exists context, timers w !! t = Some (Some (k, context)).
Proof.
  intros Hc Hl.
  pose proof (lookup_session_heap _ _ _ _ Hl) as Hh.
  pose proof (lookup_session_games _ _ _ _ Hl) as Hg.
  destruct (Hc k ref Hg) as (s1 & Hh1 & Hid & Ht).
  rewrite Hh in Hh1. injection Hh1 as <-. split; assumption.
Qed.

Lemma on_callback_query_consistent (E : env) cq w :
  consistent w -> consistent (exec (on_callback_query E cq) w).
Proof.
  intros Hc.
  destruct (lookup_session w (sessionId_of cq)) as [[ref0 s0] |] eqn:Hl.
  2:{ unfold exec. rewrite (on_callback_query_absent E cq w Hl), external_eq.
      exact Hc. }
  destruct (sessionId_of cq) as [sid |] eqn:Hsid; [| discriminate].
  destruct (lookup_session_consistent w sid ref0 s0 Hc Hl) as [Hid0 Ht0].
  pose proof (lookup_session_heap _ _ _ _ Hl) as Hh0.
  pose proof (lookup_session_games _ _ _ _ Hl) as Hg0.
  pose proof (lookup_lt_Some _ _ _ Hh0) as Hlt0.
  destruct (on_callback_query_summary E cq w sid ref0 s0 Hsid Hl)
    as (s' & armed & Hheap & Hid & Htid & Htimers & Hgames & _).
  rewrite Hid0 in *.
  intros k ref Hk. rewrite Hheap, Htimers.
  destruct (decide (k = sid)) as [-> | Hne].
  - assert (ref = ref0) as ->.
    { destruct Hgames as [Hg | [Hg | Hg]]; rewrite Hg in Hk.
      - congruence.
      - rewrite lookup_insert_eq in Hk. congruence.
      - rewrite lookup_delete_eq in Hk. discriminate. }
    exists s'. split; [apply list_lookup_insert_eq; exact Hlt0 |].
    split; [exact Hid |].
    intros t Ht. rewrite Htid in Ht.
    destruct armed as [context |].
    + injection Ht as <-. right. exists context.
      apply list_lookup_middle. symmetry. apply disarmed_length.
    + left. destruct (Ht0 t Ht) as [H | [c H]].
      * apply disarmed_cleared. exact H.
      * unfold disarmed. rewrite Ht. apply list_lookup_insert_eq.
        eapply lookup_lt_Some. exact H.
  - assert (Hk0 : activeHelperGames w !! k = Some ref).
    { destruct Hgames as [Hg | [Hg | Hg]]; rewrite Hg in Hk.
      - exact Hk.
      - rewrite lookup_insert_ne in Hk by congruence. exact Hk.
      - rewrite lookup_delete_ne in Hk by congruence. exact Hk. }
    destruct (Hc k ref Hk0) as (s & Hs & Hsk & Hst).
    assert (ref <> ref0) by (intros ->; congruence).
    exists s. rewrite list_lookup_insert_ne by congruence.
    split; [exact Hs |]. split; [exact Hsk |].
    intros t Ht.
    assert (Hd : disarmed s0 (timers w) !! t = Some None
                 \/ exists context,
                     disarmed s0 (timers w) !! t = Some (Some (k, context))).
    { destruct (Hst t Ht) as [H' | [c H']].
      - left. apply disarmed_cleared. exact H'.
      - destruct (disarmed_lookup s0 _ _ _ H') as [H'' | H'']; eauto. }
    destruct armed as [context |]; [| exact Hd].
    destruct Hd as [Hd | [c Hd]]; [left | right; exists c];
      rewrite lookup_app_l by (eapply lookup_lt_Some; exact Hd); exact Hd.
Qed.

Lemma fire_consistent (E : env) t w :
  consistent w -> consistent (exec (fire E t) w).
Proof.
  intros Hc.
  pose proof (fire_summary E t w) as [Hheap H]. cbv zeta in H.
  assert (Hgames : forall k ref,
             activeHelperGames (exec (fire E t) w) !! k = Some ref ->
             activeHelperGames w !! k = Some ref).
  { intros k ref Hk.
    destruct (timers w !! t) as [[[sid context] |] |].
    - destruct H as (_ & [Hg | Hg] & _); rewrite Hg in Hk; [exact Hk |].
      apply lookup_delete_Some in Hk. tauto.
    - destruct H as (_ & Hg & _). rewrite Hg in Hk. exact Hk.
    - destruct H as (_ & Hg & _). rewrite Hg in Hk. exact Hk. }
  assert (Htimers : forall t' x,
             timers w !! t' = Some x ->
             timers (exec (fire E t) w) !! t' = Some x
             \/ timers (exec (fire E t) w) !! t' = Some None).
  { intros t' x Hx.
    destruct (timers w !! t) as [[[sid context] |] |] eqn:Htask.
    - destruct H as (Ht & _). rewrite Ht.
      destruct (decide (t = t')) as [-> | Hne].
      + right. apply list_lookup_insert_eq. eapply lookup_lt_Some. exact Hx.
      + left. rewrite list_lookup_insert_ne by exact Hne. exact Hx.
    - destruct H as (Ht & _). rewrite Ht. left. exact Hx.
    - destruct H as (Ht & _). rewrite Ht. left. exact Hx. }
  intros k ref Hk. apply Hgames in Hk.
  destruct (Hc k ref Hk) as (s & Hs & Hsk & Hst).
  exists s. rewrite Hheap. split; [exact Hs |]. split; [exact Hsk |].
  intros t' Ht'.
  destruct (Hst t' Ht') as [H' | [c H']];
    destruct (Htimers _ _ H') as [H'' | H'']; eauto.
Qed.

Lemma handleNewGameSession_consistent (E : env) BOT_ID mainBotGameId w :
  consistent w -> consistent (exec (handleNewGameSession E BOT_ID mainBotGameId) w).
Proof.
  intros Hc.
  destruct (handleNewGameSession_summary E BOT_ID mainBotGameId w)
    as [(Hh & Hg & Ht & _)
       | (r & s' & context & _ & _ & _ & Hh & Hid & Htid & Ht & Hg)];
    intros k ref Hk; rewrite Hh, Ht; rewrite Hg in Hk.
  - exact (Hc k ref Hk).
  - destruct (decide (k = session_id r)) as [-> | Hne].
    + rewrite lookup_insert_eq in Hk. injection Hk as <-.
      exists s'. split; [apply list_lookup_middle; reflexivity |].
      split; [exact Hid |].
      intros t Ht'. rewrite Htid in Ht'. injection Ht' as <-.
      right. exists context. apply list_lookup_middle. reflexivity.
    + rewrite lookup_insert_ne in Hk by congruence.
      destruct (Hc k ref Hk) as (s & Hs & Hsk & Hst).
      exists s. split; [apply lookup_app_l_Some; exact Hs |].
      split; [exact Hsk |].
      intros t Ht'.
      destruct (Hst t Ht') as [H' | [c H']]; [left | right; exists c];
        apply lookup_app_l_Some; exact H'.
Qed.

Lemma handle_consistent (E : env) BOT_ID ev w :
  consistent w -> consistent (exec (handle E BOT_ID ev) w).
Proof.
  destruct ev as [mainBotGameId | cq | t]; cbn [handle].
  - apply handleNewGameSession_consistent.
  - apply on_callback_query_consistent.
  - apply fire_consistent.
Qed.

(** X20. The memory of the worker stays consistent along every run of
    events: each entry of the session table refers to a session object
    with the key as its session id, and the timer that object remembers is
    either done with or a pending task of that same session. It is so at
    the start, when the session table is empty. *)
Theorem memory_stays_consistent (E : env) (BOT_ID : string) (evs : list event) (w : world) :
  consistent w -> consistent (run E BOT_ID evs w).
Proof.
  revert w. induction evs as [| ev rest IH]; intros w Hc; cbn [run].
  - exact Hc.
  - apply IH. apply handle_consistent. exact Hc.
Qed.

Lemma memory_stays_consistent_witness :
  consistent start /\
  consistent (run reliable "4242"
                [Notification "g7"; Notification "g8";
                 Action (click bob "cf_helper_accept_pvp:7");
                 Action (click ann "rps_helper_pvp_submit:7:rock"); Expiry 1]
                start).
Proof.
  assert (H : consistent start) by (intros k ref Hk; discriminate Hk).
  split; [exact H |].
  exact (memory_stays_consistent reliable "4242"
           [Notification "g7"; Notification "g8";
            Action (click bob "cf_helper_accept_pvp:7");
            Action (click ann "rps_helper_pvp_submit:7:rock"); Expiry 1] start H).
Defined.

(** *** Sessions do not interfere *)

Lemma finalize_row_other st gs sid (t : list row) i r :
  t !! i = Some r -> session_id r <> sid ->
  map (finalize_row st gs sid) t !! i = Some r.
Proof.
  intros Hr Hne. change (map ?f t) with (f <$> t).
  rewrite list_lookup_fmap, Hr. cbn. unfold finalize_row.
  apply Z.eqb_neq in Hne. rewrite Hne. reflexivity.
Qed.

(** X21. Sessions do not interfere. In a consistent memory whose keys are
    safe integers, an event that is not about session [k], a safe integer
    (an action event for another session or with data that holds no id,
    the expiry of another session's timer, a notification that can claim no
    row of [k]) leaves the entry and the session object of [k], the rows of
    [k] and the pending timers of [k] exactly as they were. *)
Theorem other_sessions_are_untouched
    (E : env) (BOT_ID : string) (ev : event) (w : world) (k : Z) :
  consistent w ->
  safe_keys w -> safe_integer k ->
  ~ concerns w ev k ->
  let w' := exec (handle E BOT_ID ev) w in
  lookup_session w' (Some k) = lookup_session w (Some k) /\
  (forall i r, rps_sessions w !! i = Some r -> session_id r = k ->
               rps_sessions w' !! i = Some r) /\
  (forall t context, timers w !! t = Some (Some (k, context)) ->
                     timers w' !! t = Some (Some (k, context))).
Proof.
  intros Hc _ _ Hn. cbv zeta.
  destruct ev as [mainBotGameId | cq | t]; cbn [handle concerns] in *.
  - (* a notification *)
    destruct (handleNewGameSession_summary E BOT_ID mainBotGameId w)
      as [(Hh & Hg & Ht & Hr)
         | (r0 & s' & context0 & Hin & Hcl & Hr & Hh & _ & _ & Ht & Hg)].
    { unfold lookup_session. rewrite Hh, Hg, Ht, Hr. auto. }
    assert (Hk : k <> session_id r0) by (intros ->; apply Hn; eauto).
    split; [| split].
    + unfold lookup_session. rewrite Hh, Hg.
      rewrite lookup_insert_ne by congruence.
      destruct (activeHelperGames w !! k) as [ref |] eqn:Hgk; [| reflexivity].
      destruct (Hc k ref Hgk) as (s & Hs & _).
      rewrite (lookup_app_l_Some _ _ _ _ Hs), Hs. reflexivity.
    + intros i r Hi Hid. rewrite Hr. unfold claim_update.
      change (map ?f (rps_sessions w)) with (f <$> rps_sessions w).
      rewrite list_lookup_fmap, Hi. cbn.
      destruct (claimable mainBotGameId r) eqn:Hcr; [| reflexivity].
      exfalso. apply Hn. exists r.
      split; [eapply list_elem_of_lookup_2; exact Hi | split; assumption].
    + intros t context Htk. rewrite Ht. apply lookup_app_l_Some. exact Htk.
  - (* an action event *)
    destruct (lookup_session w (sessionId_of cq)) as [[ref0 s0] |] eqn:Hl.
    2:{ unfold exec. rewrite (on_callback_query_absent E cq w Hl), external_eq.
        unfold lookup_session. proj. auto. }
    destruct (sessionId_of cq) as [sid |] eqn:Hsid; [| discriminate].
    assert (Hk : k <> sid) by congruence.
    destruct (lookup_session_consistent w sid ref0 s0 Hc Hl) as [Hid0 Ht0].
    pose proof (lookup_session_heap _ _ _ _ Hl) as Hh0.
    destruct (on_callback_query_summary E cq w sid ref0 s0 Hsid Hl)
      as (s' & armed & Hheap & _ & _ & Htimers & Hgames & Hrows).
    split; [| split].
    + unfold lookup_session. rewrite Hheap.
      assert (Hg : activeHelperGames (exec (on_callback_query E cq) w) !! k
                   = activeHelperGames w !! k).
      { destruct Hgames as [-> | [-> | ->]]; [reflexivity | |].
        - apply lookup_insert_ne. congruence.
        - apply lookup_delete_ne. congruence. }
      rewrite Hg.
      destruct (activeHelperGames w !! k) as [ref |] eqn:Hgk; [| reflexivity].
      destruct (Hc k ref Hgk) as (s & Hs & Hsk & _).
      assert (ref0 <> ref) by (intros ->; congruence).
      rewrite list_lookup_insert_ne by assumption. reflexivity.
    + intros i r Hi Hid.
      destruct Hrows as [-> | (st & gs & _ & ->)]; [exact Hi |].
      apply finalize_row_other; [exact Hi | congruence].
    + intros t context Htk. rewrite Htimers.
      assert (Hd : disarmed s0 (timers w) !! t = Some (Some (k, context))).
      { apply disarmed_other; [| congruence | exact Htk].
        rewrite Hid0. exact Ht0. }
      destruct armed; [apply lookup_app_l_Some |]; exact Hd.
  - (* the expiry of a timer *)
    pose proof (fire_summary E t w) as [Hheap H]. cbv zeta in H.
    destruct (timers w !! t) as [[[sid context0] |] |] eqn:Htask.
    2,3: destruct H as (Ht & Hg & Hr); unfold lookup_session;
      rewrite Hheap, Hg, Ht, Hr; auto.
    assert (Hk : k <> sid) by (intros ->; apply Hn; eauto).
    destruct H as (Ht & Hgames & Hrows).
    split; [| split].
    + unfold lookup_session. rewrite Hheap.
      destruct Hgames as [-> | ->]; [reflexivity |].
      rewrite lookup_delete_ne by congruence. reflexivity.
    + intros i r Hi Hid.
      destruct Hrows as [-> | (st & gs & _ & ->)]; [exact Hi |].
      apply finalize_row_other; [exact Hi | congruence].
    + intros t' context Htk. rewrite Ht.
      rewrite list_lookup_insert_ne; [exact Htk |].
      intros ->. rewrite Htask in Htk. congruence.
Qed.

Lemma other_sessions_are_untouched_witness :
  let w' := exec (handle reliable "4242" (Action (click ann "cf_helper_cancel:7")))
                 two_sessions in
  lookup_session w' (Some 8%Z) = lookup_session two_sessions (Some 8%Z) /\
  (forall i r, rps_sessions two_sessions !! i = Some r -> session_id r = 8%Z ->
               rps_sessions w' !! i = Some r) /\
  (forall t context, timers two_sessions !! t = Some (Some (8%Z, context)) ->
                     timers w' !! t = Some (Some (8%Z, context))).
Proof.
  apply (other_sessions_are_untouched reliable "4242"
           (Action (click ann "cf_helper_cancel:7")) two_sessions 8).
  - apply (handleNewGameSession_consistent reliable "4242" "g8").
    apply (handleNewGameSession_consistent reliable "4242" "g7").
    intros k ref Hk. discriminate Hk.
  - exact safe_keys_two_sessions.
  - unfold safe_integer. cbn. lia.
  - discriminate.
Defined.

(** *** Configuration *)

Lemma split_colon_hd (s : string) :
  let h := hd "" (split_colon s) in
  colon_free h = true /\ (s = h \/ exists rest, s = h ++ ":" ++ rest).
Proof.
  induction s as [| c r IH]; cbn [split_colon]; [split; [reflexivity | left; reflexivity] |].
  destruct (Ascii.eqb c ":") eqn:Hc.
  - apply Ascii.eqb_eq in Hc. subst c. cbn [hd].
    split; [reflexivity | right; exists r; reflexivity].
  - cbv zeta in IH. destruct (split_colon r) as [| h t]; cbn [hd] in *.
    + destruct IH as [_ [-> | [rest ->]]].
      * cbn [colon_free]. rewrite Hc. split; [reflexivity | left; reflexivity].
      * cbn [colon_free]. rewrite Hc. split; [reflexivity |].
        right. exists rest. reflexivity.
    + destruct IH as [Hh Hs]. cbn [colon_free]. rewrite Hc, Hh.
      split; [reflexivity |].
      destruct Hs as [-> | [rest ->]]; [left; reflexivity |].
      right. exists rest. reflexivity.
Qed.

(** X22. The worker starts exactly when both variables are set and not
    empty, and its id is then the part of the token before the first
    colon. An unset token never reaches the test that would report it: the
    module fails with a [TypeError] first; that test reports an empty token
    or a database address that is unset or empty. *)
Theorem configuration_outcomes (RPS_BOT_TOKEN DATABASE_URL : option string) :
  match configuration RPS_BOT_TOKEN DATABASE_URL with
  | Started BOT_ID =>
    exists token url,
      RPS_BOT_TOKEN = Some token /\ DATABASE_URL = Some url /\
      token <> "" /\ url <> "" /\ colon_free BOT_ID = true /\
      (token = BOT_ID \/ exists rest, token = BOT_ID ++ ":" ++ rest)
  | Exited code _ =>
    code = 1%Z /\
    exists token, RPS_BOT_TOKEN = Some token /\
                  (token = "" \/ DATABASE_URL = None \/ DATABASE_URL = Some "")
  | Crashed _ => RPS_BOT_TOKEN = None
  end.
Proof.
  unfold configuration.
  destruct RPS_BOT_TOKEN as [token |]; [| reflexivity].
  cbn [env_value truthy].
  destruct (String.eqb token "") eqn:Ht; cbn [negb orb].
  - apply String.eqb_eq in Ht. split; [reflexivity |]. exists token. auto.
  - apply String.eqb_neq in Ht.
    destruct DATABASE_URL as [url |]; cbn [env_value truthy].
    + destruct (String.eqb url "") eqn:Hu; cbn [negb].
      * apply String.eqb_eq in Hu. subst url.
        split; [reflexivity |]. exists token. auto.
      * apply String.eqb_neq in Hu.
        destruct (split_colon_hd token) as [Hfree Hpre].
        exists token, url. repeat split; assumption.
    + split; [reflexivity |]. exists token. auto.
Qed.

(** *** The end of a duel *)

Lemma duel_status_by_the_rules (g : game_state) :
  valid_choice (p1_choice g) -> valid_choice (p2_choice g) ->
  let p1 := normalise (p1_choice g) in
  let p2 := normalise (p2_choice g) in
  duel_status g = "completed_push" /\ p1 = p2
  \/ duel_status g = "completed_p1_win" /\ beats_rel p1 p2
  \/ duel_status g = "completed_p2_win" /\ beats_rel p2 p1.
Proof.
  unfold valid_choice, duel_status, pvp_final_status. intros H1 H2. cbv zeta.
  rewrite result_verdict.
  apply includes_choices in H1, H2.
  destruct H1 as [-> | [-> | ->]]; destruct H2 as [-> | [-> | ->]];
    vm_compute; first [ left; split; reflexivity
                      | right; left; split; [reflexivity | constructor]
                      | right; right; split; [reflexivity | constructor] ].
Qed.

(** X23. The choice that completes a duel decides it by the rules: with
    both choices of the closed set and the transport and the datastore
    answering, the row is written with [completed_push] when the two
    choices are equal, [completed_p1_win] when the initiator's beats the
    opponent's and [completed_p2_win] when the opponent's beats the
    initiator's, whichever of the two players chose last, and the session
    leaves the session table. *)
Theorem duel_is_decided_by_the_rules
    (E : env) (cq : callback_query) (w : world) (sid : Z) (ref : nat)
    (s : session) (k : player_key) (message_id : jsval) :
  action_of cq = "rps_helper_pvp_submit" ->
  sessionId_of cq = Some sid ->
  lookup_session w (Some sid) = Some (ref, s) ->
  playerKey_of (clickerId_of cq) s = Some k ->
  valid_choice (param_of cq) ->
  truthy (get_choice k (gameState_of s)) = false ->
  valid_choice (get_choice (other_key k) (gameState_of s)) ->
  cq_message cq = Some message_id ->
  succeeds E (clock w) = true -> succeeds E (S (clock w)) = true ->
  succeeds E (S (S (clock w))) = true ->
  succeeds E (S (S (S (clock w)))) = true ->
  let g := gameState_of (on_game_state (set_choice k (param_of cq)) s) in
  let p1 := normalise (p1_choice g) in
  let p2 := normalise (p2_choice g) in
  let w' := exec (on_callback_query E cq) w in
  exists finalStatus,
    (finalStatus = "completed_push" /\ p1 = p2
     \/ finalStatus = "completed_p1_win" /\ beats_rel p1 p2
     \/ finalStatus = "completed_p2_win" /\ beats_rel p2 p1) /\
    rps_sessions w' = map (finalize_row finalStatus g sid) (rps_sessions w) /\
    activeHelperGames w' !! sid = None.
Proof.
  intros Hact Hsid Hl Hkey Hvalid Hmine Hother Hm H0 H1 H2 H3. cbv zeta.
  assert (Htruthy : forall v, valid_choice v -> truthy v = true).
  { intros v Hv. unfold valid_choice, normalise in Hv.
    destruct v as [| | n | x]; try (vm_compute in Hv; discriminate Hv).
    - destruct n; [vm_compute in Hv; discriminate Hv | reflexivity | reflexivity].
    - destruct x; [vm_compute in Hv; discriminate Hv | reflexivity]. }
  destruct (completing_submission E cq w sid ref s k message_id Hact Hsid Hl Hkey
              (Htruthy _ Hvalid) Hmine (Htruthy _ Hother) Hm H0 H1 H2 H3)
    as (_ & _ & Hrows & Hgone).
  eexists. split; [| split; [exact Hrows | exact Hgone]].
  apply duel_status_by_the_rules;
    destruct k; cbn [gameState_of on_game_state on_fields fields game_state_json
                     set_game_state_json set_choice set_p1_choice set_p2_choice
                     p1_choice p2_choice get_choice other_key] in *;
    assumption.
Qed.

Lemma duel_is_decided_by_the_rules_witness :
  let cq := click bob "rps_helper_pvp_submit:7:Scissors" in
  let w' := exec (on_callback_query reliable cq) duel_ann_chose in
  exists finalStatus,
    (finalStatus = "completed_push" /\ "rock" = "scissors"
     \/ finalStatus = "completed_p1_win" /\ beats_rel "rock" "scissors"
     \/ finalStatus = "completed_p2_win" /\ beats_rel "scissors" "rock") /\
    rps_sessions w'
    = map (finalize_row finalStatus
             (gameState_of
                (on_game_state (set_choice key_p2_choice (JStr "Scissors"))
                   (on_game_state (set_choice key_p1_choice (JStr "rock")) duel_session)))
             7)
          (rps_sessions duel_ann_chose) /\
    activeHelperGames w' !! 7%Z = None.
Proof.
  exact (duel_is_decided_by_the_rules reliable
           (click bob "rps_helper_pvp_submit:7:Scissors") duel_ann_chose 7 0%nat
           (on_game_state (set_choice key_p1_choice (JStr "rock")) duel_session)
           key_p2_choice (JNum 9)
           eq_refl eq_refl eq_refl eq_refl eq_refl eq_refl eq_refl eq_refl
           eq_refl eq_refl eq_refl eq_refl).
Defined.
